(** * cview: InputField, CheckBox and Modal

    A shallow embedding of the widget state machines of
    [inputfield.go], [checkbox.go] and [modal.go], and the properties of
    the specification that are about them.

    Conventions.
    - A Go [string] is a sequence of bytes: [gostring := list byte].
      [len] is the byte length; slicing [s[lo:hi]] is partial, because Go
      panics when the bounds are out of range.
    - A Go [int] is a [Z].  In the input field every integer the handlers
      compute is a byte offset bounded by the length of a string that is
      held in memory, so no addition can reach 2^63.  The modal computes
      with sizes that come from outside, so its arithmetic is written
      with the 64-bit wrap-around.
    - User callbacks ([changed], [done], [finished], [setFocus]) are
      foreign code.  A widget stores whether each one is set, and a
      handler returns the list of calls it made, in order, with their
      arguments.  The callbacks are assumed not to write to the widget
      they are called from.
    - A run-time panic is the result [None]. *)

From Stdlib Require Import ZArith List Bool Lia.
From Stdlib Require Import Strings.Byte.
From Stdlib Require Strings.String.
Import ListNotations.
Import String.StringSyntax.
Delimit Scope string_scope with string.
Open Scope Z_scope.

(** ** Go strings *)

Definition gostring := list byte.

Definition str (s : String.string) : gostring := String.list_byte_of_string s.

Arguments str s%_string.

Definition len (s : gostring) : Z := Z.of_nat (List.length s).

Definition b2z (b : byte) : Z := Z.of_N (Byte.to_N b).

Fixpoint gostring_eqb (s t : gostring) : bool :=
  match s, t with
  | [], [] => true
  | a :: s', b :: t' => Byte.eqb a b && gostring_eqb s' t'
  | _, _ => false
  end.

(** [s[lo:hi]]: panics unless [0 <= lo <= hi <= len(s)]. *)
Definition slice (s : gostring) (lo hi : Z) : option gostring :=
  if (0 <=? lo) && (lo <=? hi) && (hi <=? len s)
  then Some (firstn (Z.to_nat (hi - lo)) (skipn (Z.to_nat lo) s))
  else None.

(** [s[:hi]] *)
Definition slice_to (s : gostring) (hi : Z) : option gostring := slice s 0 hi.

(** [s[lo:]] *)
Definition slice_from (s : gostring) (lo : Z) : option gostring :=
  slice s lo (len s).

(** [strings.Repeat(s, n)] for [n >= 0]. *)
Fixpoint Repeat (s : gostring) (n : nat) : gostring :=
  match n with
  | O => []
  | S k => s ++ Repeat s k
  end.

(** The error monad of panics. *)
Definition bind {A B : Type} (m : option A) (k : A -> option B) : option B :=
  match m with
  | Some a => k a
  | None => None
  end.

Notation "x <- m ;; k" := (bind m (fun x => k))
  (at level 61, m at next level, right associativity).

(** ** UTF-8, as [unicode/utf8] and the conversion [string(rune)] do it *)

Module Utf8.

Definition rune := Z.

Definition RuneError : rune := 65533.

Definition byte_of_Z (z : Z) : byte :=
  match Byte.of_N (Z.to_N (z mod 256)) with
  | Some b => b
  | None => x00
  end.

(** [string(r)]: the UTF-8 encoding of [r]; a value that is not a valid
    code point (negative, a surrogate half, above U+10FFFF) is encoded as
    U+FFFD. *)
Definition encode_valid (r : rune) : gostring :=
  if r <=? 127 then [byte_of_Z r]
  else if r <=? 2047 then
    [byte_of_Z (Z.lor 192 (Z.shiftr r 6));
     byte_of_Z (Z.lor 128 (Z.land r 63))]
  else if r <=? 65535 then
    [byte_of_Z (Z.lor 224 (Z.shiftr r 12));
     byte_of_Z (Z.lor 128 (Z.land (Z.shiftr r 6) 63));
     byte_of_Z (Z.lor 128 (Z.land r 63))]
  else
    [byte_of_Z (Z.lor 240 (Z.shiftr r 18));
     byte_of_Z (Z.lor 128 (Z.land (Z.shiftr r 12) 63));
     byte_of_Z (Z.lor 128 (Z.land (Z.shiftr r 6) 63));
     byte_of_Z (Z.lor 128 (Z.land r 63))].

Definition valid_rune (r : rune) : bool :=
  (0 <=? r) && (r <=? 1114111) && negb ((55296 <=? r) && (r <=? 57343)).

Definition string_of_rune (r : rune) : gostring :=
  if valid_rune r then encode_valid r else encode_valid RuneError.

Definition continuation (b : byte) : bool :=
  (128 <=? b2z b) && (b2z b <=? 191).

(** The size in bytes of the first rune of a non-empty string, as
    [utf8.DecodeRuneInString] reports it: an invalid or short encoding is
    one rune of width 1. *)
Definition decodeSize (s : gostring) : nat :=
  match s with
  | [] => 0%nat
  | b0 :: rest =>
      let c := b2z b0 in
      if c <? 194 then 1%nat
      else if c <=? 223 then
        match rest with
        | b1 :: _ => if continuation b1 then 2%nat else 1%nat
        | _ => 1%nat
        end
      else if c <=? 239 then
        match rest with
        | b1 :: b2 :: _ =>
            let lo := if c =? 224 then 160 else 128 in
            let hi := if c =? 237 then 159 else 191 in
            if (lo <=? b2z b1) && (b2z b1 <=? hi) && continuation b2
            then 3%nat else 1%nat
        | _ => 1%nat
        end
      else if c <=? 244 then
        match rest with
        | b1 :: b2 :: b3 :: _ =>
            let lo := if c =? 240 then 144 else 128 in
            let hi := if c =? 244 then 143 else 191 in
            if (lo <=? b2z b1) && (b2z b1 <=? hi)
               && continuation b2 && continuation b3
            then 4%nat else 1%nat
        | _ => 1%nat
        end
      else 1%nat
  end.

(** The sizes of the runes of [s], decoded one after the other from the
    start.  [skip] counts the bytes of the current rune still to pass. *)
Fixpoint runeSizesFrom (skip : nat) (s : gostring) : list nat :=
  match s with
  | [] => []
  | _ :: s' =>
      match skip with
      | S k => runeSizesFrom k s'
      | O => decodeSize s :: runeSizesFrom (decodeSize s - 1) s'
      end
  end.

Definition runeSizes (s : gostring) : list nat := runeSizesFrom 0 s.

(** [utf8.RuneCountInString] *)
Definition RuneCountInString (s : gostring) : nat := List.length (runeSizes s).

(** The size of the last rune of [s] (0 for the empty string). *)
Definition lastRuneSize (s : gostring) : nat := last (runeSizes s) 0%nat.

End Utf8.

(** ** Events of the terminal library (tcell) *)

Inductive Key :=
| KeyRune | KeyCtrlA | KeyCtrlE | KeyCtrlK | KeyCtrlU | KeyCtrlW
| KeyBackspace | KeyBackspace2 | KeyDelete
| KeyLeft | KeyRight | KeyUp | KeyDown | KeyHome | KeyEnd
| KeyEnter | KeyEscape | KeyTab | KeyBacktab
| KeyOther (code : Z).

(** [tcell.ModAlt] in the modifier mask. *)
Definition ModAlt : Z := 4.

Record EventKey := {
  ev_key : Key;
  ev_rune : Utf8.rune;
  ev_modifiers : Z
}.

Record EventMouse := {
  mouse_x : Z;
  mouse_y : Z
}.

Inductive MouseAction :=
| MouseMove
| MouseLeftDown | MouseLeftUp | MouseLeftClick | MouseLeftDoubleClick
| MouseMiddleDown | MouseMiddleUp | MouseMiddleClick | MouseMiddleDoubleClick
| MouseRightDown | MouseRightUp | MouseRightClick | MouseRightDoubleClick
| MouseScrollUp | MouseScrollDown | MouseScrollLeft | MouseScrollRight.

Definition isLeftClick (a : MouseAction) : bool :=
  match a with
  | MouseLeftClick => true
  | _ => false
  end.

(** The calls a handler makes to foreign code, in the order it makes
    them. *)
Inductive Call :=
| CallChangedText (text : gostring)
| CallChangedChecked (checked : bool)
| CallDone (key : Key)
| CallFinished (key : Key)
| CallModalDone (buttonIndex : Z) (buttonLabel : gostring)
| CallSetFocus.

(** [if f != nil { f(args) }] *)
Definition call_if (set : bool) (c : Call) : list Call :=
  if set then [c] else [].

(** ** Box *)

Module Box.

(** Modelled from the spec: the Box every widget embeds ([box.go] is not
    among the sources).  It owns the screen rectangle, the border flag,
    the padding and the focus flag; the inner rectangle is the rectangle
    shrunk by the border (one cell per side if present) and the padding,
    with width and height clamped to be non-negative. *)
Record Box := {
  x : Z;
  y : Z;
  width : Z;
  height : Z;
  border : bool;
  paddingTop : Z;
  paddingBottom : Z;
  paddingLeft : Z;
  paddingRight : Z;
  backgroundColor : Z;
  hasFocus : bool
}.

Definition GetRect (b : Box) : Z * Z * Z * Z :=
  (x b, y b, width b, height b).

Definition SetRect (b : Box) (x' y' width' height' : Z) : Box :=
  {| x := x'; y := y'; width := width'; height := height';
     border := border b;
     paddingTop := paddingTop b; paddingBottom := paddingBottom b;
     paddingLeft := paddingLeft b; paddingRight := paddingRight b;
     backgroundColor := backgroundColor b; hasFocus := hasFocus b |}.

Definition GetInnerRect (b : Box) : Z * Z * Z * Z :=
  let '(x0, y0, w0, h0) :=
    if border b then (x b + 1, y b + 1, width b - 2, height b - 2)
    else (x b, y b, width b, height b) in
  (x0 + paddingLeft b,
   y0 + paddingTop b,
   Z.max 0 (w0 - paddingLeft b - paddingRight b),
   Z.max 0 (h0 - paddingTop b - paddingBottom b)).

(** Modelled from the spec: hit-testing against the rectangle. *)
Definition InRect (b : Box) (px py : Z) : bool :=
  (x b <=? px) && (px <? x b + width b) &&
  (y b <=? py) && (py <? y b + height b).

End Box.

(** Modelled from the spec: [WrapInputHandler] and [WrapMouseHandler]
    (methods of Box, not among the sources) return a handler of the same
    signature that does bookkeeping around the raw closure; with no
    capture function installed the wrapped handler runs the raw closure
    on the event it is given. *)
Definition WrapInputHandler {S R : Type} (raw : EventKey -> S -> R)
  : EventKey -> S -> R := raw.

Definition WrapMouseHandler {S R : Type}
  (raw : MouseAction -> EventMouse -> S -> R)
  : MouseAction -> EventMouse -> S -> R := raw.

(** The key bindings of [Keys] that the handlers consult; each is a list
    of key names. *)
Record KeyConfig := {
  Select : list gostring;
  Select2 : list gostring;
  Cancel : list gostring;
  MovePreviousField : list gostring;
  MoveNextField : list gostring
}.

(** ** CheckBox *)

Module CheckBox.

Record CheckBox := {
  box : Box.Box;
  checked : bool;
  label : gostring;
  message : gostring;
  labelWidth : Z;
  labelColor : Z;
  fieldBackgroundColor : Z;
  fieldTextColor : Z;
  (** whether [changed], [done] and [finished] are set *)
  changed : bool;
  done : bool;
  finished : bool;
  checkedRune : Utf8.rune
}.

Definition set_checked (c : CheckBox) (v : bool) : CheckBox :=
  {| box := box c; checked := v; label := label c; message := message c;
     labelWidth := labelWidth c; labelColor := labelColor c;
     fieldBackgroundColor := fieldBackgroundColor c;
     fieldTextColor := fieldTextColor c;
     changed := changed c; done := done c; finished := finished c;
     checkedRune := checkedRune c |}.

Definition SetChecked (c : CheckBox) (v : bool) : CheckBox := set_checked c v.

Definition IsChecked (c : CheckBox) : bool := checked c.

Section Handlers.

(** The shortcut comparison [HitShortcut(event, bindings...)] and the
    global key bindings [Keys] are not among the sources: they are
    parameters. *)
Variable HitShortcut : EventKey -> list (list gostring) -> bool.
Variable Keys : KeyConfig.

Definition InputHandler : EventKey -> CheckBox -> CheckBox * list Call :=
  WrapInputHandler (fun event c =>
    if HitShortcut event [Select Keys; Select2 Keys] then
      let c1 := set_checked c (negb (checked c)) in
      (c1, call_if (changed c1) (CallChangedChecked (checked c1)))
    else if HitShortcut event
              [Cancel Keys; MovePreviousField Keys; MoveNextField Keys] then
      (c, call_if (done c) (CallDone (ev_key event))
          ++ call_if (finished c) (CallFinished (ev_key event)))
    else (c, [])).

(** The result is the new state, the calls made and [consumed]; the
    capture primitive is always nil. *)
Definition MouseHandler
  : MouseAction -> EventMouse -> CheckBox -> CheckBox * list Call * bool :=
  WrapMouseHandler (fun action event c =>
    let x := mouse_x event in
    let y := mouse_y event in
    let '(_, rectY, _, _) := Box.GetInnerRect (box c) in
    if negb (Box.InRect (box c) x y) then (c, [], false)
    else if isLeftClick action && (y =? rectY) then
      let c1 := set_checked c (negb (checked c)) in
      (c1, CallSetFocus :: call_if (changed c1) (CallChangedChecked (checked c1)),
       true)
    else (c, [], false)).

Inductive Event :=
| OnKey (event : EventKey)
| OnMouse (action : MouseAction) (event : EventMouse).

Definition step (c : CheckBox) (e : Event) : CheckBox * list Call :=
  match e with
  | OnKey event => InputHandler event c
  | OnMouse action event => fst (MouseHandler action event c)
  end.

Fixpoint run (c : CheckBox) (es : list Event) : CheckBox * list Call :=
  match es with
  | [] => (c, [])
  | e :: es' =>
      let (c1, calls1) := step c e in
      let (c2, calls2) := run c1 es' in
      (c2, calls1 ++ calls2)
  end.

(** The events of the claim as it is written: a Select key press, or a
    left click anywhere inside the rectangle. *)
Definition selectOrClickInside (c : CheckBox) (e : Event) : bool :=
  match e with
  | OnKey event => HitShortcut event [Select Keys; Select2 Keys]
  | OnMouse action event =>
      isLeftClick action && Box.InRect (box c) (mouse_x event) (mouse_y event)
  end.

(** The events that toggle: a Select key press, or a left click inside
    the rectangle on the top row of the inner rectangle. *)
Definition toggles (c : CheckBox) (e : Event) : bool :=
  match e with
  | OnKey event => HitShortcut event [Select Keys; Select2 Keys]
  | OnMouse action event =>
      let '(_, rectY, _, _) := Box.GetInnerRect (box c) in
      isLeftClick action
      && Box.InRect (box c) (mouse_x event) (mouse_y event)
      && (mouse_y event =? rectY)
  end.

End Handlers.

(** The arguments of the calls to [changed], in order. *)
Fixpoint changedCalls (calls : list Call) : list bool :=
  match calls with
  | [] => []
  | CallChangedChecked v :: rest => v :: changedCalls rest
  | _ :: rest => changedCalls rest
  end.

(** [b; negb b; b; ...], [n] values. *)
Fixpoint alternate (b : bool) (n : nat) : list bool :=
  match n with
  | O => []
  | S k => b :: alternate (negb b) k
  end.

End CheckBox.

(** ** Go's 64-bit [int] *)

Module GoInt.

Definition wrap (z : Z) : Z := (z + 2 ^ 63) mod 2 ^ 64 - 2 ^ 63.

Definition add (a b : Z) : Z := wrap (a + b).
Definition sub (a b : Z) : Z := wrap (a - b).
Definition mul (a b : Z) : Z := wrap (a * b).

(** [a / b] truncates toward zero. *)
Definition quot (a b : Z) : Z := wrap (Z.quot a b).

End GoInt.

(** ** Modal *)

Inductive Align := AlignLeft | AlignCenter | AlignRight.

Module Modal.

(** Of a button only the label is read. *)
Record Button := {
  label : gostring
}.

(** Modelled from the spec: the Form a Modal owns ([form.go] is not among
    the sources): its form items, of which only the number is read, and
    its buttons. *)
Record Form := {
  formItems : nat;
  buttons : list Button
}.

Definition GetFormItemCount (f : Form) : Z := Z.of_nat (formItems f).

Record FrameText := {
  ft_text : gostring;
  ft_header : bool;
  ft_align : Align;
  ft_color : Z
}.

(** Modelled from the spec: the Frame around the form ([frame.go] is not
    among the sources): a rectangle and the lines of text added to it. *)
Record Frame := {
  frame_box : Box.Box;
  frame_texts : list FrameText
}.

Definition Frame_Clear (f : Frame) : Frame :=
  {| frame_box := frame_box f; frame_texts := [] |}.

Definition Frame_AddText (f : Frame) (text : gostring) (header : bool)
  (align : Align) (color : Z) : Frame :=
  {| frame_box := frame_box f;
     frame_texts := frame_texts f ++
       [{| ft_text := text; ft_header := header;
           ft_align := align; ft_color := color |}] |}.

Definition Frame_SetRect (f : Frame) (x y width height : Z) : Frame :=
  {| frame_box := Box.SetRect (frame_box f) x y width height;
     frame_texts := frame_texts f |}.

Record Modal := {
  box : Box.Box;
  frame : Frame;
  form : Form;
  text : gostring;
  textColor : Z;
  (** whether [done] is set *)
  done : bool
}.

Section Draw.

(** [TaggedStringWidth] and [WordWrap] are not among the sources: they
    are parameters. *)
Variable TaggedStringWidth : gostring -> Z.
Variable WordWrap : gostring -> Z -> list gostring.

(** The loop over [m.form.buttons] and the subtraction after it. *)
Definition buttonsWidth (bs : list Button) : Z :=
  GoInt.sub
    (fold_left
       (fun acc button =>
          GoInt.add acc
            (GoInt.add (GoInt.add (TaggedStringWidth (label button)) 4) 2))
       bs 0)
    2.

(** [Draw], with the size of the screen for the screen; the drawing of
    the frame itself is left to the Frame. *)
Definition Draw (m : Modal) (screenWidth screenHeight : Z) : Modal :=
  let formItemCount := GetFormItemCount (form m) in
  let buttonsWidth := buttonsWidth (buttons (form m)) in
  let width := GoInt.quot screenWidth 3 in
  let width := if width <? buttonsWidth then buttonsWidth else width in
  let frame1 := Frame_Clear (frame m) in
  let lines := WordWrap (text m) width in
  let frame2 :=
    fold_left
      (fun f line => Frame_AddText f line true AlignCenter (textColor m))
      lines frame1 in
  let height :=
    GoInt.add
      (GoInt.add (Z.of_nat (List.length lines)) (GoInt.mul formItemCount 2))
      6 in
  let width := GoInt.add width 4 in
  let x := GoInt.quot (GoInt.sub screenWidth width) 2 in
  let y := GoInt.quot (GoInt.sub screenHeight height) 2 in
  {| box := Box.SetRect (box m) x y width height;
     frame := Frame_SetRect frame2 x y width height;
     form := form m;
     text := text m;
     textColor := textColor m;
     done := done m |}.

(** The same geometry in unbounded integers, for sizes that do not
    overflow. *)
Definition rowWidth (bs : list Button) : Z :=
  fold_right (fun button acc => TaggedStringWidth (label button) + 6 + acc)
    0 bs - 2.

Definition contentWidth (m : Modal) (screenWidth : Z) : Z :=
  Z.max (Z.quot screenWidth 3) (rowWidth (buttons (form m))).

Definition modalRect (m : Modal) (screenWidth screenHeight : Z)
  : Z * Z * Z * Z :=
  let inner := contentWidth m screenWidth in
  let width := inner + 4 in
  let height :=
    Z.of_nat (List.length (WordWrap (text m) inner))
    + 2 * Z.of_nat (formItems (form m)) + 6 in
  (Z.quot (screenWidth - width) 2, Z.quot (screenHeight - height) 2,
   width, height).

End Draw.

End Modal.

(** ** The regular expressions of [inputfield.go]

    [regexRightWord] matches, at the end of the string, a run of word
    characters (possibly empty) or else one non-word character;
    [regexLeftWord] matches, at the start of the string, one non-word
    character or else a run of word characters.  Both are only used to
    delete their matches ([ReplaceAllString] with the empty string).  A
    word character is one of the ASCII letters, digits and the
    underscore; a non-word character is one rune that is not, and the
    engine steps through the string rune by rune as [unicode/utf8]
    decodes it. *)

Module Regex.

Definition isWord (b : byte) : bool :=
  let c := b2z b in
  ((48 <=? c) && (c <=? 57)) || ((65 <=? c) && (c <=? 90))
  || (c =? 95) || ((97 <=? c) && (c <=? 122)).

(** The length of the longest prefix of word bytes. *)
Fixpoint wordRun (s : gostring) : nat :=
  match s with
  | b :: s' => if isWord b then S (wordRun s') else O
  | [] => O
  end.

(** [regexRightWord.ReplaceAllString(s, "")]: the match that ends the
    string is the longest run of word bytes there, or, when there is
    none, the last rune. *)
Definition removeRightWord (s : gostring) : gostring :=
  let n := wordRun (rev s) in
  if (0 <? n)%nat then firstn (List.length s - n) s
  else firstn (List.length s - Utf8.lastRuneSize s) s.

(** [regexLeftWord.ReplaceAllString(s, "")]: the match at the start is
    the first rune when it is not a word byte, or else the longest run
    of word bytes. *)
Definition removeLeftWord (s : gostring) : gostring :=
  match s with
  | [] => []
  | b :: _ =>
      if isWord b then skipn (wordRun s) s
      else skipn (Utf8.decodeSize s) s
  end.

End Regex.

(** ** The List of autocomplete entries *)

Module List_.

Record ListItem := {
  mainText : gostring;
  secondaryText : gostring;
  enabled : bool
}.

Definition enable (item : ListItem) : ListItem :=
  {| mainText := mainText item; secondaryText := secondaryText item;
     enabled := true |}.

Inductive ScrollBarVisibility :=
| ScrollBarNever | ScrollBarAuto | ScrollBarAlways.

(** Modelled from the spec: the selection list behind the autocomplete
    drop-down ([list.go] is not among the sources).  It holds the
    candidates and the index of the highlighted one.  A change of the
    highlighted candidate is reported to the [changed] callback: for the
    first candidate when it is added to an empty list, and for a
    candidate selected with [SetCurrentItem] when it was not the
    highlighted one already.  [SetCurrentItem] counts a negative index
    from the end and clamps an index past the end. *)
Record List := {
  items : list ListItem;
  currentItem : Z;
  hasChanged : bool;
  showSecondaryText : bool;
  mainTextColor : Z;
  selectedTextColor : Z;
  selectedBackgroundColor : Z;
  highlightFullLine : bool;
  backgroundColor : Z;
  scrollBarVisibility : ScrollBarVisibility;
  rect : Z * Z * Z * Z
}.

Definition with_items (l : List) (its : list ListItem) (cur : Z) : List :=
  {| items := its; currentItem := cur; hasChanged := hasChanged l;
     showSecondaryText := showSecondaryText l;
     mainTextColor := mainTextColor l;
     selectedTextColor := selectedTextColor l;
     selectedBackgroundColor := selectedBackgroundColor l;
     highlightFullLine := highlightFullLine l;
     backgroundColor := backgroundColor l;
     scrollBarVisibility := scrollBarVisibility l;
     rect := rect l |}.

Definition SetRect (l : List) (x y width height : Z) : List :=
  {| items := items l; currentItem := currentItem l;
     hasChanged := hasChanged l;
     showSecondaryText := showSecondaryText l;
     mainTextColor := mainTextColor l;
     selectedTextColor := selectedTextColor l;
     selectedBackgroundColor := selectedBackgroundColor l;
     highlightFullLine := highlightFullLine l;
     backgroundColor := backgroundColor l;
     scrollBarVisibility := scrollBarVisibility l;
     rect := (x, y, width, height) |}.

(** The chain of setters [Autocomplete] applies to a new list. *)
Definition configure (l : List)
  (textColor selTextColor selBgColor bgColor : Z) : List :=
  {| items := items l; currentItem := currentItem l;
     hasChanged := true;
     showSecondaryText := false;
     mainTextColor := textColor;
     selectedTextColor := selTextColor;
     selectedBackgroundColor := selBgColor;
     highlightFullLine := true;
     backgroundColor := bgColor;
     scrollBarVisibility := scrollBarVisibility l;
     rect := rect l |}.

Definition GetItemCount (l : List) : Z := Z.of_nat (List.length (items l)).

Definition GetCurrentItemIndex (l : List) : Z := currentItem l.

Definition item_at (l : List) (index : Z) : option ListItem :=
  if (0 <=? index) then nth_error (items l) (Z.to_nat index) else None.

(** The highlighted item, or nil. *)
Definition GetCurrentItem (l : List) : option ListItem :=
  item_at l (currentItem l).

(** The main and the secondary text of an item; panics out of range. *)
Definition GetItemText (l : List) (index : Z) : option (gostring * gostring) :=
  item <- item_at l index ;; Some (mainText item, secondaryText item).

Definition Clear (l : List) : List := with_items l [] 0.

(** The result is the list and the items passed to [changed]. *)
Definition AddItem (l : List) (item : ListItem) : List * list ListItem :=
  let l1 := with_items l (items l ++ [item]) (currentItem l) in
  (l1,
   if hasChanged l && (GetItemCount l1 =? 1) then firstn 1 (items l1) else []).

Definition SetCurrentItem (l : List) (index : Z) : List * list ListItem :=
  let count := GetItemCount l in
  let index := if index <? 0 then count + index else index in
  let index := if index >=? count then count - 1 else index in
  let index := if index <? 0 then 0 else index in
  let previousItem := currentItem l in
  let l1 := with_items l (items l) index in
  (l1,
   if negb (index =? previousItem) && (index <? count) && hasChanged l
   then match item_at l1 index with
        | Some item => [item]
        | None => []
        end
   else []).

End List_.

(** ** InputField *)

Module InputField.

Import List_.

(** The colour fields of the struct, which no handler writes. *)
Record Colors := {
  labelColor : Z;
  labelColorFocused : Z;
  fieldBackgroundColor : Z;
  fieldBackgroundColorFocused : Z;
  fieldTextColor : Z;
  fieldTextColorFocused : Z;
  placeholderTextColor : Z;
  placeholderTextColorFocused : Z;
  autocompleteListTextColor : Z;
  autocompleteListBackgroundColor : Z;
  autocompleteListSelectedTextColor : Z;
  autocompleteListSelectedBackgroundColor : Z;
  autocompleteSuggestionTextColor : Z;
  fieldNoteTextColor : Z
}.

Record InputField := {
  box : Box.Box;
  text : gostring;
  label : gostring;
  placeholder : gostring;
  colors : Colors;
  fieldNote : gostring;
  labelWidth : Z;
  fieldWidth : Z;
  maskCharacter : Utf8.rune;
  cursorPos : Z;
  autocomplete : option (gostring -> list ListItem);
  autocompleteList : option List;
  autocompleteListSuggestion : gostring;
  accept : option (gostring -> Utf8.rune -> bool);
  (** whether [changed], [done] and [finished] are set *)
  changed : bool;
  done : bool;
  finished : bool;
  fieldX : Z;
  offset : Z
}.

(** The fields the operations below write, all at once. *)
Definition update (i : InputField) (text' : gostring) (mask' : Utf8.rune)
  (cursorPos' : Z) (list' : option List) (suggestion' : gostring)
  (fieldX' offset' : Z) : InputField :=
  {| box := box i; text := text'; label := label i;
     placeholder := placeholder i; colors := colors i;
     fieldNote := fieldNote i; labelWidth := labelWidth i;
     fieldWidth := fieldWidth i; maskCharacter := mask';
     cursorPos := cursorPos';
     autocomplete := autocomplete i; autocompleteList := list';
     autocompleteListSuggestion := suggestion';
     accept := accept i; changed := changed i; done := done i;
     finished := finished i; fieldX := fieldX'; offset := offset' |}.

Definition set_text (i : InputField) (t : gostring) : InputField :=
  update i t (maskCharacter i) (cursorPos i) (autocompleteList i)
    (autocompleteListSuggestion i) (fieldX i) (offset i).

Definition set_maskCharacter (i : InputField) (m : Utf8.rune) : InputField :=
  update i (text i) m (cursorPos i) (autocompleteList i)
    (autocompleteListSuggestion i) (fieldX i) (offset i).

Definition set_cursorPos (i : InputField) (p : Z) : InputField :=
  update i (text i) (maskCharacter i) p (autocompleteList i)
    (autocompleteListSuggestion i) (fieldX i) (offset i).

Definition set_autocompleteList (i : InputField) (l : option List)
  : InputField :=
  update i (text i) (maskCharacter i) (cursorPos i) l
    (autocompleteListSuggestion i) (fieldX i) (offset i).

Definition set_suggestion (i : InputField) (s : gostring) : InputField :=
  update i (text i) (maskCharacter i) (cursorPos i) (autocompleteList i)
    s (fieldX i) (offset i).

Definition set_fieldX (i : InputField) (v : Z) : InputField :=
  update i (text i) (maskCharacter i) (cursorPos i) (autocompleteList i)
    (autocompleteListSuggestion i) v (offset i).

Definition set_offset (i : InputField) (v : Z) : InputField :=
  update i (text i) (maskCharacter i) (cursorPos i) (autocompleteList i)
    (autocompleteListSuggestion i) (fieldX i) v.

(** [SetText]: the new state and the calls made. *)
Definition SetText (i : InputField) (t : gostring) : InputField * list Call :=
  let i1 := set_cursorPos (set_text i t) (len t) in
  (i1, call_if (changed i1) (CallChangedText t)).

Definition GetText (i : InputField) : gostring := text i.

Definition GetCursorPosition (i : InputField) : Z := cursorPos i.

Definition SetCursorPosition (i : InputField) (p : Z) : InputField :=
  set_cursorPos i p.

Definition SetMaskCharacter (i : InputField) (mask : Utf8.rune) : InputField :=
  set_maskCharacter i mask.

(** [autocompleteChanged]: the callback of the autocomplete list. *)
Definition autocompleteChanged (i : InputField) (item : ListItem)
  : option InputField :=
  if (0 <? len (secondaryText item))
     && (len (text i) <? len (secondaryText item)) then
    s <- slice_from (secondaryText item) (len (text i)) ;;
    Some (set_suggestion i s)
  else if len (mainText item) >? len (text i) + 1 then
    s <- slice_from (mainText item) (len (text i) + 1) ;;
    Some (set_suggestion i s)
  else Some (set_suggestion i []).

(** Deliver the reports of a list operation to [autocompleteChanged]. *)
Fixpoint fire (i : InputField) (reported : list ListItem)
  : option InputField :=
  match reported with
  | [] => Some i
  | item :: rest => i1 <- autocompleteChanged i item ;; fire i1 rest
  end.

(** A method call on [i.autocompleteList] that reports to the callback;
    a nil list is a nil dereference. *)
Definition onList (i : InputField) (op : List -> List * list ListItem)
  : option InputField :=
  match autocompleteList i with
  | None => None
  | Some l =>
      let (l1, reported) := op l in
      fire (set_autocompleteList i (Some l1)) reported
  end.

Section Autocomplete.

(** The list [NewList()] returns is not among the sources: a parameter. *)
Variable NewList : List.

(** The loop of [Autocomplete] over the entries. *)
Fixpoint fillEntries (i : InputField) (entries : list ListItem)
  (index currentEntry : Z) : option (InputField * Z) :=
  match entries with
  | [] => Some (i, currentEntry)
  | entry :: rest =>
      let entry := enable entry in
      i1 <- onList i (fun l => AddItem l entry) ;;
      let currentEntry :=
        if (currentEntry <? 0) && gostring_eqb (mainText entry) (text i1)
        then index else currentEntry in
      fillEntries i1 rest (index + 1) currentEntry
  end.

Definition Autocomplete (i : InputField) : option InputField :=
  match autocomplete i with
  | None => Some i
  | Some generator =>
      let entries := generator (text i) in
      if (Z.of_nat (List.length entries) =? 0) then
        Some (set_suggestion (set_autocompleteList i None) [])
      else
        let l :=
          match autocompleteList i with
          | Some l => l
          | None =>
              configure NewList
                (autocompleteListTextColor (colors i))
                (autocompleteListSelectedTextColor (colors i))
                (autocompleteListSelectedBackgroundColor (colors i))
                (autocompleteListBackgroundColor (colors i))
          end in
        let i1 := set_autocompleteList i (Some (Clear l)) in
        r <- fillEntries i1 entries 0 (-1) ;;
        let (i2, currentEntry) := r : InputField * Z in
        if currentEntry >=? 0
        then onList i2 (fun l => SetCurrentItem l currentEntry)
        else Some i2
  end.

End Autocomplete.

(** One grapheme cluster as the iteration reports it to its callback:
    byte offset, byte length, screen column and screen width.  (The
    runes of the cluster are passed too; no callback here reads them.) *)
Record Cluster := {
  textPos : Z;
  textWidth : Z;
  screenPos : Z;
  screenWidth : Z
}.

Section Handlers.

Variable NewList : List.

(** The segmentation into grapheme clusters (the byte length of each
    cluster of a string, in order) and the screen width of a string come
    from outside the sources: they are parameters. *)
Variable graphemes : gostring -> list nat.
Variable stringWidth : gostring -> Z.

Fixpoint clustersFrom (rest : gostring) (lens : list nat)
  (pos column : Z) : list Cluster :=
  match lens with
  | [] => []
  | n :: lens' =>
      let w := stringWidth (firstn n rest) in
      {| textPos := pos; textWidth := Z.of_nat n;
         screenPos := column; screenWidth := w |}
      :: clustersFrom (skipn n rest) lens' (pos + Z.of_nat n) (column + w)
  end.

Definition clusters (s : gostring) : list Cluster :=
  clustersFrom s (graphemes s) 0 0.

(** Call [callback] on each cluster until it returns true; the result
    says whether it did.  The callback works on a state [S]. *)
Fixpoint iterate {S : Type} (cs : list Cluster)
  (callback : Cluster -> S -> option (S * bool)) (st : S)
  : option (S * bool) :=
  match cs with
  | [] => Some (st, false)
  | c :: cs' =>
      r <- callback c st ;;
      if snd r then Some (fst r, true) else iterate cs' callback (fst r)
  end.

(** Modelled from the spec: [iterateString] and [iterateStringReverse]
    ([util.go] is not among the sources) traverse the grapheme clusters
    of a string forward or backward, and the visitor may stop the
    traversal. *)
Definition iterateString {S : Type} (s : gostring)
  (callback : Cluster -> S -> option (S * bool)) (st : S)
  : option (S * bool) :=
  iterate (clusters s) callback st.

Definition iterateStringReverse {S : Type} (s : gostring)
  (callback : Cluster -> S -> option (S * bool)) (st : S)
  : option (S * bool) :=
  iterate (rev (clusters s)) callback st.

(** The closures of [InputHandler]. *)

Definition home (i : InputField) : InputField := set_cursorPos i 0.

Definition end_ (i : InputField) : InputField :=
  set_cursorPos i (len (text i)).

Definition moveLeft (i : InputField) : option InputField :=
  prefix <- slice_to (text i) (cursorPos i) ;;
  r <- iterateStringReverse prefix
         (fun c i => Some (set_cursorPos i (cursorPos i - textWidth c), true))
         i ;;
  Some (fst r).

Definition moveRight (i : InputField) : option InputField :=
  suffix <- slice_from (text i) (cursorPos i) ;;
  r <- iterateString suffix
         (fun c i => Some (set_cursorPos i (cursorPos i + textWidth c), true))
         i ;;
  Some (fst r).

Definition moveWordLeft (i : InputField) : option InputField :=
  prefix <- slice_to (text i) (cursorPos i) ;;
  Some (set_cursorPos i (len (Regex.removeRightWord prefix))).

Definition moveWordRight (i : InputField) : option InputField :=
  suffix <- slice_from (text i) (cursorPos i) ;;
  Some (set_cursorPos i (len (text i) - len (Regex.removeLeftWord suffix))).

(** [add]: the state and whether the rune was accepted. *)
Definition add (i : InputField) (r : Utf8.rune) : option (InputField * bool) :=
  prefix <- slice_to (text i) (cursorPos i) ;;
  suffix <- slice_from (text i) (cursorPos i) ;;
  let newText := prefix ++ Utf8.string_of_rune r ++ suffix in
  let rejected :=
    match accept i with
    | Some acceptFunc => negb (acceptFunc newText r)
    | None => false
    end in
  if rejected then Some (i, false)
  else
    Some (set_cursorPos (set_text i newText)
            (cursorPos i + len (Utf8.string_of_rune r)), true).

Definition finish (i : InputField) (key : Key) : list Call :=
  call_if (done i) (CallDone key) ++ call_if (finished i) (CallFinished key).

Definition quiet (r : option InputField) : option (InputField * list Call) :=
  i <- r ;; Some (i, []).

Definition hasAlt (event : EventKey) : bool :=
  Z.land (ev_modifiers event) ModAlt >? 0.

(** The [switch] on the key, up to the return of the closure. *)
Definition processKey (event : EventKey) (i : InputField)
  : option (InputField * list Call) :=
  match ev_key event with
  | KeyRune =>
      if hasAlt event then
        if ev_rune event =? 97 then Some (home i, [])
        else if ev_rune event =? 101 then Some (end_ i, [])
        else if ev_rune event =? 98 then quiet (moveWordLeft i)
        else if ev_rune event =? 102 then quiet (moveWordRight i)
        else r <- add i (ev_rune event) ;; Some (fst r, [])
      else r <- add i (ev_rune event) ;; Some (fst r, [])
  | KeyCtrlU => Some (set_cursorPos (set_text i []) 0, [])
  | KeyCtrlK =>
      prefix <- slice_to (text i) (cursorPos i) ;;
      Some (set_text i prefix, [])
  | KeyCtrlW =>
      prefix <- slice_to (text i) (cursorPos i) ;;
      suffix <- slice_from (text i) (cursorPos i) ;;
      let newText := Regex.removeRightWord prefix ++ suffix in
      let i1 := set_cursorPos i (cursorPos i - (len (text i) - len newText)) in
      Some (set_text i1 newText, [])
  | KeyBackspace | KeyBackspace2 =>
      prefix <- slice_to (text i) (cursorPos i) ;;
      r <- iterateStringReverse prefix
             (fun c i =>
                before <- slice_to (text i) (textPos c) ;;
                after <- slice_from (text i) (textPos c + textWidth c) ;;
                Some (set_cursorPos (set_text i (before ++ after))
                        (cursorPos i - textWidth c), true))
             i ;;
      let i1 := fst r in
      Some (if offset i1 >=? cursorPos i1 then set_offset i1 0 else i1, [])
  | KeyDelete =>
      suffix <- slice_from (text i) (cursorPos i) ;;
      r <- iterateString suffix
             (fun c i =>
                before <- slice_to (text i) (cursorPos i) ;;
                after <- slice_from (text i) (cursorPos i + textWidth c) ;;
                Some (set_text i (before ++ after), true))
             i ;;
      Some (fst r, [])
  | KeyLeft => quiet (if hasAlt event then moveWordLeft i else moveLeft i)
  | KeyRight => quiet (if hasAlt event then moveWordRight i else moveRight i)
  | KeyHome | KeyCtrlA => Some (home i, [])
  | KeyEnd | KeyCtrlE => Some (end_ i, [])
  | KeyEnter =>
      match autocompleteList i with
      | Some l =>
          currentItem <- GetCurrentItem l ;;
          let selectionText :=
            if negb (gostring_eqb (secondaryText currentItem) [])
            then secondaryText currentItem else mainText currentItem in
          let (i1, calls) := SetText i selectionText in
          Some (set_suggestion (set_autocompleteList i1 None) [], calls)
      | None => Some (i, finish i KeyEnter)
      end
  | KeyEscape =>
      match autocompleteList i with
      | Some _ => Some (set_suggestion (set_autocompleteList i None) [], [])
      | None => Some (i, finish i KeyEscape)
      end
  | KeyDown | KeyTab =>
      match autocompleteList i with
      | Some l =>
          let count := GetItemCount l in
          let newEntry := GetCurrentItemIndex l + 1 in
          let newEntry := if newEntry >=? count then 0 else newEntry in
          quiet (onList i (fun l => SetCurrentItem l newEntry))
      | None => Some (i, finish i (ev_key event))
      end
  | KeyUp | KeyBacktab =>
      match autocompleteList i with
      | Some l =>
          let newEntry := GetCurrentItemIndex l - 1 in
          let newEntry :=
            if newEntry <? 0 then GetItemCount l - 1 else newEntry in
          quiet (onList i (fun l => SetCurrentItem l newEntry))
      | None => Some (i, finish i (ev_key event))
      end
  | KeyOther _ => Some (i, [])
  end.

(** The deferred function: it runs when the closure returns. *)
Definition triggerChanged (currentText : gostring) (i : InputField)
  : option (InputField * list Call) :=
  if negb (gostring_eqb (text i) currentText) then
    i1 <- Autocomplete NewList i ;;
    Some (i1, call_if (changed i1) (CallChangedText (text i1)))
  else Some (i, []).

Definition InputHandler
  : EventKey -> InputField -> option (InputField * list Call) :=
  WrapInputHandler (fun event i =>
    let currentText := text i in
    r <- processKey event i ;;
    d <- triggerChanged currentText (fst r) ;;
    Some (fst d, snd r ++ snd d)).

(** The new state, the calls made and [consumed]; the capture primitive
    is always nil. *)
Definition MouseHandler
  : MouseAction -> EventMouse -> InputField
    -> option (InputField * list Call * bool) :=
  WrapMouseHandler (fun action event i =>
    let x := mouse_x event in
    let y := mouse_y event in
    let '(_, rectY, _, _) := Box.GetInnerRect (box i) in
    if negb (Box.InRect (box i) x y) then Some (i, [], false)
    else if isLeftClick action && (y =? rectY) then
      i1 <- (if x >=? fieldX i then
               r <- iterateString (text i)
                      (fun c i =>
                         if x - fieldX i <? screenPos c + screenWidth c
                         then Some (set_cursorPos i (textPos c), true)
                         else Some (i, false))
                      i ;;
               Some (if snd r then fst r
                     else set_cursorPos (fst r) (len (text (fst r))))
             else Some i) ;;
      Some (i1, [CallSetFocus], true)
    else Some (i, [], false)).

(** A sequence of key events. *)
Fixpoint run (i : InputField) (events : list EventKey)
  : option (InputField * list Call) :=
  match events with
  | [] => Some (i, [])
  | event :: rest =>
      r <- InputHandler event i ;;
      r' <- run (fst r) rest ;;
      Some (fst r', snd r ++ snd r')
  end.

End Handlers.

(** What [Draw] does to the screen, in order. *)
Inductive ScreenOp :=
| OpBoxDraw
| OpPrint (text : gostring) (x y maxWidth : Z) (align : Align) (color : Z)
| OpSetContent (x y : Z) (ch : Utf8.rune) (background : Z)
| OpListDraw (l : List)
| OpShowCursor (x y : Z).

(** The texts passed to [Print], in order. *)
Fixpoint printed (ops : list ScreenOp) : list gostring :=
  match ops with
  | [] => []
  | OpPrint t _ _ _ _ _ :: rest => t :: printed rest
  | _ :: rest => printed rest
  end.

Definition MaxInt32 : Z := 2147483647.

Section Draw.

Variable graphemes : gostring -> list nat.
Variable stringWidth : gostring -> Z.

(** [ColorUnset], [Escape], [TaggedStringWidth] and the screen width
    [Print] reports to have drawn are not among the sources: they are
    parameters. *)
Variable ColorUnset : Z.
Variable Escape : gostring -> gostring.
Variable TaggedStringWidth : gostring -> Z.
Variable printedWidth : gostring -> Z -> Z -> Z -> Align -> Z.

Definition focusedColor (focused : bool) (normal whenFocused : Z) : Z :=
  if focused && negb (whenFocused =? ColorUnset) then whenFocused else normal.

(** The text [Draw] shows for the entered text: masked rune by rune when
    a mask character is set. *)
Definition shownText (i : InputField) : gostring :=
  if maskCharacter i >? 0
  then Repeat (Utf8.string_of_rune (maskCharacter i))
         (Utf8.RuneCountInString (text i))
  else text i.

(** The callback of the iteration in the branch of [Draw] for a text
    that fits the field: it adds up the screen width before the cursor. *)
Definition cursorStep (cursor : Z) (c : Cluster) (cursorScreenPos : Z)
  : option (Z * bool) :=
  if textPos c >=? cursor then Some (cursorScreenPos, true)
  else Some (cursorScreenPos + screenWidth c, false).

(** The callback of the iteration in the branch of [Draw] for a text
    that does not fit the field.  Its state is [i.offset], [shiftLeft]
    and [cursorScreenPos]. *)
Definition scrollStep (currentOffset cursor : Z) (c : Cluster)
  (st : Z * Z * Z) : option (Z * Z * Z * bool) :=
  let '(off, shiftLeft, cursorScreenPos) := st in
  if textPos c >=? currentOffset then
    if shiftLeft >? 0 then
      Some ((textPos c + textWidth c, shiftLeft - screenWidth c,
             cursorScreenPos), false)
    else if textPos c + textWidth c >? cursor then Some (st, true)
    else Some ((off, shiftLeft, cursorScreenPos + screenWidth c), false)
  else Some (st, false).

(** That iteration and the slice it ends with: the state, the text
    drawn and the screen column of the cursor. *)
Definition scrollText (i : InputField) (shown : gostring) (shiftLeft : Z)
  : option (InputField * gostring * Z) :=
  it <- iterateString graphemes stringWidth shown
          (scrollStep (offset i) (cursorPos i))
          (offset i, shiftLeft, 0) ;;
  let '(off, _, cursorScreenPos) := fst it in
  let i := set_offset i off in
  visible <- slice_from shown (offset i) ;;
  Some (i, Escape visible, cursorScreenPos).

(** The branch of [Draw] for a text that does not fit the field. *)
Definition drawScrolled (i : InputField) (shown : gostring) (fieldWidth : Z)
  : option (InputField * gostring * Z) :=
  let i :=
    if cursorPos i <? 0 then set_cursorPos i 0
    else if cursorPos i >? len shown then set_cursorPos i (len shown)
    else i in
  r <- (if offset i >? cursorPos i then Some (set_offset i (cursorPos i), 0)
        else
          sub <- slice shown (offset i) (cursorPos i) ;;
          let subWidth := stringWidth sub in
          Some (i, if subWidth >? fieldWidth - 1
                   then subWidth - fieldWidth + 1 else 0)) ;;
  let (i, shiftLeft) := r : InputField * Z in
  scrollText i shown shiftLeft.

(** The placement of the autocomplete list. *)
Definition placeList (l : List) (x y sheight : Z) : List :=
  let lheight := GetItemCount l in
  let lwidth :=
    fold_left
      (fun lwidth item =>
         let width := TaggedStringWidth (mainText item) in
         if width >? lwidth then width else lwidth)
      (items l) 0 in
  let lx := x in
  let ly := y + 1 in
  let ly :=
    if (ly + lheight >=? sheight) && (ly - 2 >? lheight - ly)
    then (if y - lheight <? 0 then 0 else y - lheight)
    else ly in
  let lheight := if ly + lheight >=? sheight then sheight - ly else lheight in
  let lwidth :=
    match scrollBarVisibility l with
    | ScrollBarAlways => lwidth + 1
    | ScrollBarAuto => if GetItemCount l >? lheight then lwidth + 1 else lwidth
    | ScrollBarNever => lwidth
    end in
  SetRect l lx ly lwidth lheight.

(** The part of [Draw] that draws the placeholder or the entered text
    and the suggestion: the state, what is drawn and the screen column of
    the cursor. *)
Definition drawText (i : InputField) (x y fieldWidth : Z) (focused : bool)
  (fieldTextColor : Z) : option (InputField * list ScreenOp * Z) :=
  if gostring_eqb (text i) [] && negb (gostring_eqb (placeholder i) [])
  then
    let placeholderTextColor :=
      focusedColor focused (placeholderTextColor (colors i))
        (placeholderTextColorFocused (colors i)) in
    Some (set_offset i 0,
          [OpPrint (Escape (placeholder i)) x y fieldWidth AlignLeft
             placeholderTextColor],
          0)
  else
    let shown := shownText i in
    d <- (if fieldWidth >=? stringWidth shown then
            it <- iterateString graphemes stringWidth shown
                    (cursorStep (cursorPos i)) 0 ;;
            Some (set_offset i 0, Escape shown, fst it)
          else drawScrolled i shown fieldWidth) ;;
    let '(i, drawnText, cursorScreenPos) := d : InputField * gostring * Z in
    let opsSuggestion :=
      if (maskCharacter i =? 0)
         && negb (gostring_eqb (autocompleteListSuggestion i) [])
      then [OpPrint (autocompleteListSuggestion i)
              (x + stringWidth drawnText) y
              (fieldWidth - stringWidth drawnText) AlignLeft
              (autocompleteSuggestionTextColor (colors i))]
      else [] in
    Some (i,
          OpPrint drawnText x y fieldWidth AlignLeft fieldTextColor
          :: opsSuggestion,
          cursorScreenPos).

(** [Draw], on a screen of height [sheight]. *)
Definition Draw (i : InputField) (sheight : Z)
  : option (InputField * list ScreenOp) :=
  let focused := Box.hasFocus (box i) in
  let labelColor :=
    focusedColor focused (labelColor (colors i))
      (labelColorFocused (colors i)) in
  let fieldBackgroundColor :=
    focusedColor focused (fieldBackgroundColor (colors i))
      (fieldBackgroundColorFocused (colors i)) in
  let fieldTextColor :=
    focusedColor focused (fieldTextColor (colors i))
      (fieldTextColorFocused (colors i)) in
  let '(x, y, width, height) := Box.GetInnerRect (box i) in
  let rightLimit := x + width in
  if (height <? 1) || (rightLimit <=? x) then Some (i, [OpBoxDraw])
  else
    let labelMax :=
      if labelWidth i >? 0
      then (if labelWidth i >? rightLimit - x
            then rightLimit - x else labelWidth i)
      else rightLimit - x in
    let opLabel := OpPrint (label i) x y labelMax AlignLeft labelColor in
    let x :=
      if labelWidth i >? 0 then x + labelMax
      else x + printedWidth (label i) x y labelMax AlignLeft in
    let i := set_fieldX i x in
    let fieldWidth := if fieldWidth i =? 0 then MaxInt32 else fieldWidth i in
    let fieldWidth :=
      if rightLimit - x <? fieldWidth then rightLimit - x else fieldWidth in
    let opsField :=
      map (fun index => OpSetContent (x + Z.of_nat index) y 32
                          fieldBackgroundColor)
        (seq 0 (Z.to_nat fieldWidth)) in
    r <- drawText i x y fieldWidth focused fieldTextColor ;;
    let '(i, opsText, cursorScreenPos) :=
      r : InputField * list ScreenOp * Z in
    let opsNote :=
      if negb (gostring_eqb (fieldNote i) [])
      then [OpPrint (fieldNote i) x (y + 1) fieldWidth AlignLeft
              (fieldNoteTextColor (colors i))]
      else [] in
    let (i, opsList) :=
      match autocompleteList i with
      | Some l =>
          let l1 := placeList l x y sheight in
          (set_autocompleteList i (Some l1), [OpListDraw l1])
      | None => (i, [])
      end in
    let opsCursor :=
      if Box.hasFocus (box i) then [OpShowCursor (x + cursorScreenPos) y]
      else [] in
    Some (i, OpBoxDraw :: opLabel :: opsField ++ opsText ++ opsNote
             ++ opsList ++ opsCursor).

End Draw.

End InputField.

(** * The vocabulary of the properties *)

Section Vocabulary.

Import List_ InputField.

(** The buttons whose labels have a screen width that fits 31 bits. *)
Definition labelsBounded (TaggedStringWidth : gostring -> Z)
  (bs : list Modal.Button) : Prop :=
  Forall (fun b => 0 <= TaggedStringWidth (Modal.label b) < 2 ^ 31) bs.

(** The contract of the segmentation into grapheme clusters: the
    clusters of a string are not empty and together they are the
    string. *)
Definition partitions (graphemes : gostring -> list nat) : Prop :=
  forall s : gostring,
    Forall (fun n => (1 <= n)%nat) (graphemes s) /\
    list_sum (graphemes s) = List.length s.

(** Writing the list and the suggestion, the two fields the autocomplete
    operations write. *)
Definition withAutocomplete (i : InputField) (l : option List)
  (s : gostring) : InputField :=
  set_suggestion (set_autocompleteList i l) s.



(** The value Enter accepts from an item. *)
Definition selectionOf (item : ListItem) : gostring :=
  if negb (gostring_eqb (secondaryText item) [])
  then secondaryText item else mainText item.

(** The invariant of the cursor. *)
Definition cursorInText (i : InputField) : Prop :=
  0 <= cursorPos i <= len (text i).

(** The text with the bytes of [r] spliced in at the cursor. *)
Definition insertAt (i : InputField) (r : Utf8.rune) : gostring :=
  firstn (Z.to_nat (cursorPos i)) (text i)
  ++ Utf8.string_of_rune r
  ++ skipn (Z.to_nat (cursorPos i)) (text i).

(** Whether an acceptance function is set and rejects the text with
    [r] inserted. *)
Definition rejects (i : InputField) (r : Utf8.rune) : bool :=
  match accept i with
  | Some acceptFunc => negb (acceptFunc (insertAt i r) r)
  | None => false
  end.

(** The field after the insertion of [r]. *)
Definition inserted (i : InputField) (r : Utf8.rune) : InputField :=
  set_cursorPos (set_text i (insertAt i r))
    (cursorPos i + len (Utf8.string_of_rune r)).

(** The key events that reach [add]: a rune without Alt, or with Alt
    when it is not one of the movement combinations Alt-a, Alt-e, Alt-b
    and Alt-f. *)
Definition isInsertion (event : EventKey) : bool :=
  match ev_key event with
  | KeyRune =>
      negb (hasAlt event)
      || negb ((ev_rune event =? 97) || (ev_rune event =? 101)
               || (ev_rune event =? 98) || (ev_rune event =? 102))
  | _ => false
  end.

(** The insert and delete keys: a rune, Backspace, Delete, Ctrl-K,
    Ctrl-W and Ctrl-U. *)
Definition isEdit (event : EventKey) : bool :=
  match ev_key event with
  | KeyRune | KeyBackspace | KeyBackspace2 | KeyDelete
  | KeyCtrlK | KeyCtrlW | KeyCtrlU => true
  | _ => false
  end.

(** The states a run of the key handler passes through, the last one
    last; [None] when some event panics. *)
Fixpoint trace (NewList : List) (graphemes : gostring -> list nat)
  (stringWidth : gostring -> Z) (i : InputField) (events : list EventKey)
  : option (list InputField) :=
  match events with
  | [] => Some []
  | event :: rest =>
      r <- InputHandler NewList graphemes stringWidth event i ;;
      states <- trace NewList graphemes stringWidth (fst r) rest ;;
      Some (fst r :: states)
  end.

(** The index of the first entry whose main text is [t], counting from
    [index]; -1 when there is none. *)
Fixpoint firstMatch (t : gostring) (entries : list ListItem) (index : Z) : Z :=
  match entries with
  | [] => -1
  | e :: rest =>
      if gostring_eqb (mainText e) t then index
      else firstMatch t rest (index + 1)
  end.

(** The list [Autocomplete] fills: the open one, or a new one with the
    colours of the field. *)
Definition listToFill (NewList : List) (i : InputField) : List :=
  match autocompleteList i with
  | Some l => l
  | None =>
      configure NewList
        (autocompleteListTextColor (colors i))
        (autocompleteListSelectedTextColor (colors i))
        (autocompleteListSelectedBackgroundColor (colors i))
        (autocompleteListBackgroundColor (colors i))
  end.

(** The cursor as the branch of [Draw] for a text that does not fit
    leaves it: moved into the range of the string that is drawn. *)
Definition clampCursor (cursor : Z) (shown : gostring) : Z :=
  if cursor <? 0 then 0
  else if cursor >? len shown then len shown else cursor.

(** [Draw] draws the placeholder, not the entered text. *)
Definition showsPlaceholder (i : InputField) : bool :=
  gostring_eqb (text i) [] && negb (gostring_eqb (placeholder i) []).

(** The inner rectangle leaves no room: [Draw] returns after the box. *)
Definition nothingToDraw (i : InputField) : bool :=
  let '(x, _, width, height) := Box.GetInnerRect (box i) in
  (height <? 1) || (x + width <=? x).

(** The column where [Draw] puts the input area (the end of the label)
    and the width it gives it. *)
Definition drawnFieldX (printedWidth : gostring -> Z -> Z -> Z -> Align -> Z)
  (i : InputField) : Z :=
  let '(x, y, width, _) := Box.GetInnerRect (box i) in
  let rightLimit := x + width in
  let labelMax :=
    if labelWidth i >? 0
    then (if labelWidth i >? rightLimit - x
          then rightLimit - x else labelWidth i)
    else rightLimit - x in
  if labelWidth i >? 0 then x + labelMax
  else x + printedWidth (label i) x y labelMax AlignLeft.

Definition drawnFieldWidth
  (printedWidth : gostring -> Z -> Z -> Z -> Align -> Z) (i : InputField)
  : Z :=
  let '(x, _, width, _) := Box.GetInnerRect (box i) in
  let rightLimit := x + width in
  let x := drawnFieldX printedWidth i in
  let fieldWidth := if fieldWidth i =? 0 then MaxInt32 else fieldWidth i in
  if rightLimit - x <? fieldWidth then rightLimit - x else fieldWidth.

(** The texts [Draw] passes to [Print], in order, when the entered text
    is shown as [shown] from the byte offset [o] on: the label; the
    placeholder, or else the visible part of the shown text and, without
    a mask, the suggestion; the note. *)
Definition drawnTexts (Escape : gostring -> gostring) (i : InputField)
  (shown : gostring) (o : Z) : list gostring :=
  label i
  :: (if showsPlaceholder i then [Escape (placeholder i)]
      else Escape (skipn (Z.to_nat o) shown)
           :: (if (maskCharacter i =? 0)
                  && negb (gostring_eqb (autocompleteListSuggestion i) [])
               then [autocompleteListSuggestion i] else []))
  ++ (if negb (gostring_eqb (fieldNote i) []) then [fieldNote i] else []).

End Vocabulary.

(** * Data for the examples *)

(** An unchecked checkbox three rows high, with [changed] set. *)
Definition checkbox0 : CheckBox.CheckBox :=
  {| CheckBox.box :=
       {| Box.x := 0; Box.y := 0; Box.width := 10; Box.height := 3;
          Box.border := false;
          Box.paddingTop := 0; Box.paddingBottom := 0;
          Box.paddingLeft := 0; Box.paddingRight := 0;
          Box.backgroundColor := 0; Box.hasFocus := true |};
     CheckBox.checked := false;
     CheckBox.label := str "Agree";
     CheckBox.message := [];
     CheckBox.labelWidth := 0;
     CheckBox.labelColor := 0;
     CheckBox.fieldBackgroundColor := 0;
     CheckBox.fieldTextColor := 0;
     CheckBox.changed := true;
     CheckBox.done := false;
     CheckBox.finished := false;
     CheckBox.checkedRune := 88 |}.

(** A shortcut comparison for the examples: Enter is the Select key. *)
Definition hitEnter (event : EventKey) (bindings : list (list gostring)) : bool :=
  match ev_key event with
  | KeyEnter => true
  | _ => false
  end.

(** The default key bindings. *)
Definition keys0 : KeyConfig :=
  {| Select := [str "Enter"]; Select2 := [str "Space"];
     Cancel := [str "Escape"]; MovePreviousField := [str "Backtab"];
     MoveNextField := [str "Tab"] |}.

(** A modal with one form item and the buttons OK and Cancel. *)
Definition modal0 : Modal.Modal :=
  {| Modal.box :=
       {| Box.x := 0; Box.y := 0; Box.width := 0; Box.height := 0;
          Box.border := false;
          Box.paddingTop := 0; Box.paddingBottom := 0;
          Box.paddingLeft := 0; Box.paddingRight := 0;
          Box.backgroundColor := 0; Box.hasFocus := false |};
     Modal.frame :=
       {| Modal.frame_box :=
            {| Box.x := 0; Box.y := 0; Box.width := 0; Box.height := 0;
               Box.border := true;
               Box.paddingTop := 1; Box.paddingBottom := 1;
               Box.paddingLeft := 1; Box.paddingRight := 1;
               Box.backgroundColor := 0; Box.hasFocus := false |};
          Modal.frame_texts := [] |};
     Modal.form :=
       {| Modal.formItems := 1;
          Modal.buttons := [ {| Modal.label := str "OK" |};
                             {| Modal.label := str "Cancel" |} ] |};
     Modal.text := str "Quit now?";
     Modal.textColor := 0;
     Modal.done := true |}.

(** For the examples: every byte is one column wide, and a text is
    never wrapped. *)
Definition byteWidth (s : gostring) : Z := len s.

Definition wrapOneLine (s : gostring) (width : Z) : list gostring := [s].

(** An empty list for [NewList()]. *)
Definition newList0 : List_.List :=
  {| List_.items := []; List_.currentItem := 0; List_.hasChanged := false;
     List_.showSecondaryText := true; List_.mainTextColor := 0;
     List_.selectedTextColor := 0; List_.selectedBackgroundColor := 0;
     List_.highlightFullLine := false; List_.backgroundColor := 0;
     List_.scrollBarVisibility := List_.ScrollBarAuto;
     List_.rect := (0, 0, 0, 0) |}.

(** A candidate with a main text only. *)
Definition entry (main : gostring) : List_.ListItem :=
  {| List_.mainText := main; List_.secondaryText := [];
     List_.enabled := false |}.

(** The generator of the specification's example: for the text "foo" it
    proposes "foo" and "foobar", and for other texts nothing. *)
Definition fooGenerator (t : gostring) : list List_.ListItem :=
  if gostring_eqb t (str "foo")
  then [entry (str "foo"); entry (str "foobar")]
  else [].

(** A generator that proposes every text that extends the current one,
    among "foo" and "foobar". *)
Definition prefixGenerator (t : gostring) : list List_.ListItem :=
  filter (fun e => gostring_eqb (firstn (List.length t) (List_.mainText e)) t)
    [entry (str "foo"); entry (str "foobar")].

Definition colors0 : InputField.Colors :=
  InputField.Build_Colors 1 2 3 4 5 6 7 8 9 10 11 12 13 14.

(** A focused field twenty cells wide that holds [t], with the cursor
    at its end and all three callbacks set. *)
Definition field (t : gostring)
  (generator : option (gostring -> list List_.ListItem))
  (l : option List_.List) : InputField.InputField :=
  {| InputField.box :=
       {| Box.x := 0; Box.y := 0; Box.width := 20; Box.height := 1;
          Box.border := false;
          Box.paddingTop := 0; Box.paddingBottom := 0;
          Box.paddingLeft := 0; Box.paddingRight := 0;
          Box.backgroundColor := 0; Box.hasFocus := true |};
     InputField.text := t;
     InputField.label := str "Name: ";
     InputField.placeholder := [];
     InputField.colors := colors0;
     InputField.fieldNote := [];
     InputField.labelWidth := 0;
     InputField.fieldWidth := 0;
     InputField.maskCharacter := 0;
     InputField.cursorPos := len t;
     InputField.autocomplete := generator;
     InputField.autocompleteList := l;
     InputField.autocompleteListSuggestion := [];
     InputField.accept := None;
     InputField.changed := true;
     InputField.done := true;
     InputField.finished := true;
     InputField.fieldX := 0;
     InputField.offset := 0 |}.

(** The list of the two candidates, with the candidate [current]
    highlighted. *)
Definition fooList (current : Z) : List_.List :=
  List_.with_items
    (List_.configure newList0 9 11 12 10)
    [List_.enable (entry (str "foo")); List_.enable (entry (str "foobar"))]
    current.

(** Every byte is a grapheme cluster of its own, one column wide. *)
Definition byteGraphemes (s : gostring) : list nat := map (fun _ => 1%nat) s.

(** Key events: a key without rune, and a rune without modifier. *)
Definition press (k : Key) : EventKey :=
  {| ev_key := k; ev_rune := 0; ev_modifiers := 0 |}.

Definition type (r : Utf8.rune) : EventKey :=
  {| ev_key := KeyRune; ev_rune := r; ev_modifiers := 0 |}.

(** An acceptance function that takes decimal digits only. *)
Definition digitsOnly (t : gostring) (r : Utf8.rune) : bool :=
  (48 <=? r) && (r <=? 57).

(** [SetAcceptanceFunc] *)
Definition withAccept (i : InputField.InputField)
  (f : gostring -> Utf8.rune -> bool) : InputField.InputField :=
  {| InputField.box := InputField.box i;
     InputField.text := InputField.text i;
     InputField.label := InputField.label i;
     InputField.placeholder := InputField.placeholder i;
     InputField.colors := InputField.colors i;
     InputField.fieldNote := InputField.fieldNote i;
     InputField.labelWidth := InputField.labelWidth i;
     InputField.fieldWidth := InputField.fieldWidth i;
     InputField.maskCharacter := InputField.maskCharacter i;
     InputField.cursorPos := InputField.cursorPos i;
     InputField.autocomplete := InputField.autocomplete i;
     InputField.autocompleteList := InputField.autocompleteList i;
     InputField.autocompleteListSuggestion :=
       InputField.autocompleteListSuggestion i;
     InputField.accept := Some f;
     InputField.changed := InputField.changed i;
     InputField.done := InputField.done i;
     InputField.finished := InputField.finished i;
     InputField.fieldX := InputField.fieldX i;
     InputField.offset := InputField.offset i |}.

(** For the examples: nothing needs escaping, and [Print] draws a text
    up to the width it is given. *)
Definition identity (s : gostring) : gostring := s.

Definition clippedWidth (t : gostring) (x y maxWidth : Z) (a : Align) : Z :=
  Z.min (len t) maxWidth.

(** Fifteen times the letter e with an acute accent, U+00E9, which
    takes two bytes each. *)
Definition accented : gostring := Repeat (Utf8.string_of_rune 233) 15.

(** Every rune is a grapheme cluster of its own, one column wide. *)
Definition runeGraphemes (s : gostring) : list nat := Utf8.runeSizes s.

Definition runeWidth (s : gostring) : Z :=
  Z.of_nat (Utf8.RuneCountInString s).

(** * Properties *)

(** ** CheckBox *)

Section CheckBoxFacts.

Import CheckBox.

Variable HitShortcut : EventKey -> list (list gostring) -> bool.
Variable Keys : KeyConfig.

Lemma set_checked_box (c : CheckBox) (v : bool) :
  box (set_checked c v) = box c.
Proof. reflexivity. Qed.

Lemma toggles_stable (c : CheckBox) (v : bool) (e : Event) :
  toggles HitShortcut Keys (set_checked c v) e = toggles HitShortcut Keys c e.
Proof. destruct e; reflexivity. Qed.

(** One toggling event flips [checked], writes nothing else and calls
    [changed], if set, once with the new value. *)
Lemma step_toggles (c : CheckBox) (e : Event) :
  toggles HitShortcut Keys c e = true ->
  fst (step HitShortcut Keys c e) = set_checked c (negb (checked c)) /\
  changedCalls (snd (step HitShortcut Keys c e))
  = if changed c then [negb (checked c)] else [].
Proof.
  destruct e as [event | action event]; simpl.
  - unfold InputHandler, WrapInputHandler. intros ->. simpl.
    destruct (changed c); split; reflexivity.
  - unfold MouseHandler, WrapMouseHandler.
    destruct (Box.GetInnerRect (box c)) as [[[ix iy] iw] ih].
    intros H.
    apply andb_prop in H as [H Hrow]. apply andb_prop in H as [Hclick Hin].
    rewrite Hin, Hclick, Hrow. simpl.
    destruct (changed c); split; reflexivity.
Qed.

Lemma changedCalls_app (a b : list Call) :
  changedCalls (a ++ b) = changedCalls a ++ changedCalls b.
Proof.
  induction a as [| x a IH]; simpl; [reflexivity |].
  destruct x; simpl; rewrite ?IH; reflexivity.
Qed.

Lemma run_toggles (es : list Event) : forall c : CheckBox,
  forallb (toggles HitShortcut Keys c) es = true ->
  checked (fst (run HitShortcut Keys c es))
  = xorb (checked c) (Nat.odd (List.length es)) /\
  changedCalls (snd (run HitShortcut Keys c es))
  = if changed c then alternate (negb (checked c)) (List.length es) else [].
Proof.
  induction es as [| e es IH]; intros c H.
  - simpl. rewrite xorb_false_r. destruct (changed c); split; reflexivity.
  - simpl in H. apply andb_prop in H as [He Hes].
    destruct (step_toggles c e He) as [Hst Hcalls].
    cbn [run].
    destruct (step HitShortcut Keys c e) as [c1 calls1] eqn:Estep.
    simpl in Hst, Hcalls. subst c1.
    assert (Hes' : forallb (toggles HitShortcut Keys
                              (set_checked c (negb (checked c)))) es = true).
    { apply forallb_forall. intros e' He'. rewrite toggles_stable.
      rewrite forallb_forall in Hes. exact (Hes e' He'). }
    destruct (IH _ Hes') as [IHc IHcalls].
    destruct (run HitShortcut Keys (set_checked c (negb (checked c))) es)
      as [c2 calls2].
    simpl in IHc, IHcalls. simpl fst. simpl snd.
    split.
    + rewrite IHc. cbn [List.length]. rewrite Nat.odd_succ, <- Nat.negb_odd.
      destruct (checked c), (Nat.odd (List.length es)); reflexivity.
    + rewrite changedCalls_app, Hcalls, IHcalls.
      destruct (changed c); reflexivity.
Qed.

End CheckBoxFacts.

(** C2, as amended: for every sequence of events each of which is a
    Select-shortcut key press or a left click inside the rectangle on the
    top row of the inner rectangle, every event flips [checked] and
    writes no other field, so that after the sequence [checked] is the
    initial value flipped once per event; and [changed], when set, is
    called exactly once per event, with the successive new values. *)
Theorem checkbox_toggle_alternates
  (HitShortcut : EventKey -> list (list gostring) -> bool) (Keys : KeyConfig)
  (c : CheckBox.CheckBox) (es : list CheckBox.Event) :
  forallb (CheckBox.toggles HitShortcut Keys c) es = true ->
  (forall e, In e es ->
     forall c', CheckBox.box c' = CheckBox.box c ->
       fst (CheckBox.step HitShortcut Keys c' e)
       = CheckBox.set_checked c' (negb (CheckBox.checked c')) /\
       CheckBox.changedCalls (snd (CheckBox.step HitShortcut Keys c' e))
       = if CheckBox.changed c' then [negb (CheckBox.checked c')] else []) /\
  CheckBox.checked (fst (CheckBox.run HitShortcut Keys c es))
  = xorb (CheckBox.checked c) (Nat.odd (List.length es)) /\
  CheckBox.changedCalls (snd (CheckBox.run HitShortcut Keys c es))
  = if CheckBox.changed c
    then CheckBox.alternate (negb (CheckBox.checked c)) (List.length es)
    else [].
Proof.
  intros H. split.
  - intros e He c' Hbox. apply step_toggles.
    rewrite forallb_forall in H. specialize (H e He).
    destruct e; simpl in *; rewrite ?Hbox; exact H.
  - apply run_toggles. exact H.
Qed.

Lemma checkbox_toggle_alternates_witness :
  CheckBox.checked
    (fst (CheckBox.run hitEnter keys0 checkbox0
            [CheckBox.OnKey (press KeyEnter);
             CheckBox.OnMouse MouseLeftClick {| mouse_x := 4; mouse_y := 0 |};
             CheckBox.OnKey (press KeyEnter)]))
  = true /\
  CheckBox.changedCalls
    (snd (CheckBox.run hitEnter keys0 checkbox0
            [CheckBox.OnKey (press KeyEnter);
             CheckBox.OnMouse MouseLeftClick {| mouse_x := 4; mouse_y := 0 |};
             CheckBox.OnKey (press KeyEnter)]))
  = [true; false; true].
Proof.
  exact (proj2 (checkbox_toggle_alternates hitEnter keys0 checkbox0
                  [CheckBox.OnKey (press KeyEnter);
                   CheckBox.OnMouse MouseLeftClick
                     {| mouse_x := 4; mouse_y := 0 |};
                   CheckBox.OnKey (press KeyEnter)]
                  eq_refl)).
Defined.

(** C2, as written, fails: a left click inside the rectangle but below
    the top row of the inner rectangle is one of the events of the
    claim, and the handler neither flips [checked] nor calls [changed]. *)
Lemma checkbox_click_below_first_row :
  CheckBox.selectOrClickInside hitEnter keys0 checkbox0
    (CheckBox.OnMouse MouseLeftClick {| mouse_x := 4; mouse_y := 1 |}) = true /\
  CheckBox.MouseHandler MouseLeftClick {| mouse_x := 4; mouse_y := 1 |} checkbox0
  = (checkbox0, [], false).
Proof. split; reflexivity. Qed.

(** ** Modal *)

Section GoIntFacts.

Lemma wrap_small (z : Z) : - 2 ^ 63 <= z < 2 ^ 63 -> GoInt.wrap z = z.
Proof.
  intros H. unfold GoInt.wrap. rewrite Z.mod_small; lia.
Qed.

Lemma quot_bounds (a b lo hi : Z) :
  0 < b -> lo <= 0 <= hi -> lo <= a <= hi -> lo <= Z.quot a b <= hi.
Proof.
  intros Hb H0 Ha.
  destruct (Z.le_gt_cases 0 a) as [Hpos | Hneg].
  - rewrite Z.quot_div_nonneg by lia.
    assert (0 <= a / b) by (apply Z.div_pos; lia).
    assert (a / b <= a) by (apply Z.div_le_upper_bound; nia).
    lia.
  - rewrite <- (Z.opp_involutive a), Z.quot_opp_l by lia.
    rewrite Z.quot_div_nonneg by lia.
    assert (0 <= (- a) / b) by (apply Z.div_pos; lia).
    assert ((- a) / b <= - a) by (apply Z.div_le_upper_bound; nia).
    lia.
Qed.

End GoIntFacts.

Section ModalFacts.

Import Modal.

Variable TaggedStringWidth : gostring -> Z.
Variable WordWrap : gostring -> Z -> list gostring.

Lemma fold_buttons_exact (bs : list Button) : forall acc : Z,
  labelsBounded TaggedStringWidth bs ->
  0 <= acc ->
  acc + Z.of_nat (List.length bs) * (2 ^ 31 + 6) < 2 ^ 62 ->
  fold_left
    (fun acc button =>
       GoInt.add acc
         (GoInt.add (GoInt.add (TaggedStringWidth (label button)) 4) 2))
    bs acc
  = acc + fold_right
            (fun button acc => TaggedStringWidth (label button) + 6 + acc)
            0 bs
  /\ 0 <= fold_right
            (fun button acc => TaggedStringWidth (label button) + 6 + acc)
            0 bs
       <= Z.of_nat (List.length bs) * (2 ^ 31 + 6).
Proof.
  induction bs as [| b bs IH]; intros acc Hb Hacc Hfit.
  - simpl. lia.
  - inversion Hb as [| ? ? Hb1 Hbs]; subst.
    cbn [fold_left fold_right].
    cbn [List.length] in Hfit. rewrite Nat2Z.inj_succ in Hfit.
    assert (Hstep :
      GoInt.add acc
        (GoInt.add (GoInt.add (TaggedStringWidth (label b)) 4) 2)
      = acc + (TaggedStringWidth (label b) + 4 + 2)).
    { unfold GoInt.add.
      rewrite (wrap_small (TaggedStringWidth (label b) + 4)) by lia.
      rewrite (wrap_small (TaggedStringWidth (label b) + 4 + 2)) by lia.
      apply wrap_small. lia. }
    rewrite Hstep.
    destruct (IH (acc + (TaggedStringWidth (label b) + 4 + 2)) Hbs) as [E B];
      [lia | lia |].
    rewrite E. cbn [List.length]. rewrite Nat2Z.inj_succ. lia.
Qed.

Lemma buttonsWidth_exact (bs : list Button) :
  labelsBounded TaggedStringWidth bs ->
  Z.of_nat (List.length bs) < 2 ^ 20 ->
  buttonsWidth TaggedStringWidth bs = rowWidth TaggedStringWidth bs /\
  - 2 <= rowWidth TaggedStringWidth bs < 2 ^ 52.
Proof.
  intros Hb Hn. unfold buttonsWidth, rowWidth.
  destruct (fold_buttons_exact bs 0 Hb) as [E B]; [lia | lia |].
  rewrite E. unfold GoInt.sub. rewrite wrap_small by lia. lia.
Qed.

(** The rectangle [Draw] assigns reads the modal only through its text,
    its button labels and its number of form items. *)
Lemma Draw_rect_inputs (m m' : Modal) (sw sh : Z) :
  text m' = text m ->
  map label (buttons (form m')) = map label (buttons (form m)) ->
  formItems (form m') = formItems (form m) ->
  Box.GetRect (box (Draw TaggedStringWidth WordWrap m' sw sh))
  = Box.GetRect (box (Draw TaggedStringWidth WordWrap m sw sh)).
Proof.
  intros Ht Hl Hn.
  assert (Hbs : buttons (form m') = buttons (form m)).
  { revert Hl. generalize (buttons (form m)) (buttons (form m')).
    intros l. induction l as [| [a] l IH]; intros [| [a'] l'] H;
      simpl in H; try discriminate; [reflexivity |].
    injection H as -> H. f_equal. apply IH. exact H. }
  unfold Draw, GetFormItemCount. cbn [box Box.GetRect Box.SetRect
    Box.x Box.y Box.width Box.height].
  rewrite Ht, Hbs, Hn. reflexivity.
Qed.

End ModalFacts.

Lemma Draw_rect_exact
  (TaggedStringWidth : gostring -> Z)
  (WordWrap : gostring -> Z -> list gostring)
  (m : Modal.Modal) (sw sh : Z) :
  0 <= sw < 2 ^ 31 -> 0 <= sh < 2 ^ 31 ->
  labelsBounded TaggedStringWidth (Modal.buttons (Modal.form m)) ->
  Z.of_nat (List.length (Modal.buttons (Modal.form m))) < 2 ^ 20 ->
  Z.of_nat (Modal.formItems (Modal.form m)) < 2 ^ 31 ->
  (forall t w, Z.of_nat (List.length (WordWrap t w)) < 2 ^ 31) ->
  Box.GetRect (Modal.box (Modal.Draw TaggedStringWidth WordWrap m sw sh))
  = Modal.modalRect TaggedStringWidth WordWrap m sw sh /\
  Box.GetRect
    (Modal.frame_box
       (Modal.frame (Modal.Draw TaggedStringWidth WordWrap m sw sh)))
  = Modal.modalRect TaggedStringWidth WordWrap m sw sh.
Proof.
  intros Hsw Hsh Hlabels Hcount Hitems Hlines.
  destruct (buttonsWidth_exact TaggedStringWidth _ Hlabels Hcount)
    as [Erow Brow].
  assert (Hq : 0 <= Z.quot sw 3 <= 2 ^ 31)
    by (apply quot_bounds; lia).
  assert (Ewidth :
    (if GoInt.quot sw 3
        <? Modal.buttonsWidth TaggedStringWidth (Modal.buttons (Modal.form m))
     then Modal.buttonsWidth TaggedStringWidth (Modal.buttons (Modal.form m))
     else GoInt.quot sw 3)
    = Modal.contentWidth TaggedStringWidth m sw).
  { unfold GoInt.quot, Modal.contentWidth.
    rewrite wrap_small by lia. rewrite Erow.
    destruct (Z.ltb_spec (Z.quot sw 3)
                (Modal.rowWidth TaggedStringWidth
                   (Modal.buttons (Modal.form m)))); lia. }
  assert (Bwidth :
    0 <= Modal.contentWidth TaggedStringWidth m sw < 2 ^ 52)
    by (unfold Modal.contentWidth; lia).
  set (inner := Modal.contentWidth TaggedStringWidth m sw) in *.
  pose proof (Hlines (Modal.text m) inner) as Hl.
  set (nlines := Z.of_nat (List.length (WordWrap (Modal.text m) inner))) in *.
  assert (Hnl : 0 <= nlines) by (unfold nlines; lia).
  assert (Eheight :
    GoInt.add
      (GoInt.add nlines
         (GoInt.mul (Modal.GetFormItemCount (Modal.form m)) 2)) 6
    = nlines + 2 * Z.of_nat (Modal.formItems (Modal.form m)) + 6).
  { unfold GoInt.add, GoInt.mul, Modal.GetFormItemCount.
    rewrite (wrap_small (_ * 2)) by lia.
    rewrite (wrap_small (nlines + _)) by lia.
    rewrite wrap_small by lia. lia. }
  assert (Ew4 : GoInt.add inner 4 = inner + 4)
    by (unfold GoInt.add; apply wrap_small; lia).
  assert (Ex : GoInt.quot (GoInt.sub sw (inner + 4)) 2
               = Z.quot (sw - (inner + 4)) 2).
  { unfold GoInt.quot, GoInt.sub. rewrite (wrap_small (sw - _)) by lia.
    apply wrap_small.
    assert (- 2 ^ 53 <= Z.quot (sw - (inner + 4)) 2 <= 2 ^ 53)
      by (apply quot_bounds; lia).
    lia. }
  set (h := nlines + 2 * Z.of_nat (Modal.formItems (Modal.form m)) + 6) in *.
  assert (Ey : GoInt.quot (GoInt.sub sh h) 2 = Z.quot (sh - h) 2).
  { unfold GoInt.quot, GoInt.sub. rewrite (wrap_small (sh - _)) by lia.
    apply wrap_small.
    assert (- 2 ^ 53 <= Z.quot (sh - h) 2 <= 2 ^ 53)
      by (apply quot_bounds; lia).
    lia. }
  unfold Modal.Draw, Modal.modalRect.
  cbn [Modal.box Modal.frame Modal.frame_box Modal.Frame_SetRect
       Box.GetRect Box.SetRect Box.x Box.y Box.width Box.height].
  rewrite Ewidth. fold inner. fold nlines.
  rewrite Eheight, Ew4, Ex. fold h. rewrite Ey.
  split; reflexivity.
Qed.

(** C3: the rectangle [Modal.Draw] assigns with [SetRect] (to itself and
    to its frame) is determined by the screen size, the message text,
    the button labels and the number of form items.  For sizes that do
    not overflow, its width is the larger of a third of the screen width
    and the width of the button row, plus 4; its height is the number of
    wrapped lines plus 2 per form item plus 6; and it is centred: the
    margins left and right (above and below) differ by at most one cell
    when the rectangle fits the screen.  Two modals with the same text,
    labels and item count get the same rectangle, and drawing again
    gives the same rectangle. *)
Theorem modal_draw_rectangle
  (TaggedStringWidth : gostring -> Z)
  (WordWrap : gostring -> Z -> list gostring)
  (m : Modal.Modal) (sw sh : Z) :
  0 <= sw < 2 ^ 31 -> 0 <= sh < 2 ^ 31 ->
  labelsBounded TaggedStringWidth (Modal.buttons (Modal.form m)) ->
  Z.of_nat (List.length (Modal.buttons (Modal.form m))) < 2 ^ 20 ->
  Z.of_nat (Modal.formItems (Modal.form m)) < 2 ^ 31 ->
  (forall t w, Z.of_nat (List.length (WordWrap t w)) < 2 ^ 31) ->
  let m1 := Modal.Draw TaggedStringWidth WordWrap m sw sh in
  let inner :=
    Z.max (Z.quot sw 3)
      (Modal.rowWidth TaggedStringWidth (Modal.buttons (Modal.form m))) in
  let width := inner + 4 in
  let height :=
    Z.of_nat (List.length (WordWrap (Modal.text m) inner))
    + 2 * Z.of_nat (Modal.formItems (Modal.form m)) + 6 in
  let x := Z.quot (sw - width) 2 in
  let y := Z.quot (sh - height) 2 in
  Box.GetRect (Modal.box m1) = (x, y, width, height) /\
  Box.GetRect (Modal.frame_box (Modal.frame m1)) = (x, y, width, height) /\
  (width <= sw -> 0 <= (sw - width - x) - x <= 1) /\
  (height <= sh -> 0 <= (sh - height - y) - y <= 1) /\
  (forall m' : Modal.Modal,
     Modal.text m' = Modal.text m ->
     map Modal.label (Modal.buttons (Modal.form m'))
     = map Modal.label (Modal.buttons (Modal.form m)) ->
     Modal.formItems (Modal.form m') = Modal.formItems (Modal.form m) ->
     Box.GetRect (Modal.box (Modal.Draw TaggedStringWidth WordWrap m' sw sh))
     = Box.GetRect (Modal.box m1)) /\
  Box.GetRect (Modal.box (Modal.Draw TaggedStringWidth WordWrap m1 sw sh))
  = Box.GetRect (Modal.box m1).
Proof.
  intros Hsw Hsh Hlabels Hcount Hitems Hlines m1 inner width height x y.
  destruct (Draw_rect_exact TaggedStringWidth WordWrap m sw sh
              Hsw Hsh Hlabels Hcount Hitems Hlines) as [Ebox Eframe].
  split; [exact Ebox |]. split; [exact Eframe |].
  split; [| split; [| split]].
  - intros Hfit. subst x.
    pose proof (Z.quot_rem' (sw - width) 2).
    pose proof (Z.rem_bound_pos (sw - width) 2). lia.
  - intros Hfit. subst y.
    pose proof (Z.quot_rem' (sh - height) 2).
    pose proof (Z.rem_bound_pos (sh - height) 2). lia.
  - intros m' Ht Hl Hn. apply Draw_rect_inputs; assumption.
  - apply Draw_rect_inputs; reflexivity.
Qed.

Lemma modal_draw_rectangle_witness :
  Box.GetRect (Modal.box (Modal.Draw byteWidth wrapOneLine modal0 80 24))
  = (25, 7, 30, 9).
Proof.
  refine (proj1 (modal_draw_rectangle byteWidth wrapOneLine modal0 80 24
                   _ _ _ _ _ _)).
  - lia.
  - lia.
  - unfold labelsBounded.
    repeat (apply Forall_cons; [vm_compute; split; [discriminate | reflexivity] |]).
    apply Forall_nil.
  - vm_compute. reflexivity.
  - vm_compute. reflexivity.
  - intros t w. vm_compute. reflexivity.
Defined.

(** ** Go strings and slices *)

Section StringFacts.

Lemma len_nonneg (s : gostring) : 0 <= len s.
Proof. unfold len. lia. Qed.

Lemma len_app (s t : gostring) : len (s ++ t) = len s + len t.
Proof. unfold len. rewrite length_app. lia. Qed.

Lemma gostring_eqb_eq (s t : gostring) : gostring_eqb s t = true <-> s = t.
Proof.
  revert t. induction s as [| a s IH]; intros [| b t]; simpl;
    try (split; [discriminate | discriminate]); [tauto |].
  rewrite andb_true_iff, IH. split.
  - intros [Hab ->]. apply Byte.byte_dec_bl in Hab. now subst.
  - intros H. injection H as -> ->. split; [| reflexivity].
    now apply Byte.byte_dec_lb.
Qed.

Lemma gostring_eqb_refl (s : gostring) : gostring_eqb s s = true.
Proof. now apply gostring_eqb_eq. Qed.

Lemma gostring_eqb_len (s t : gostring) :
  len s <> len t -> gostring_eqb s t = false.
Proof.
  intros H. destruct (gostring_eqb s t) eqn:E; [| reflexivity].
  apply gostring_eqb_eq in E. now subst.
Qed.

Lemma slice_to_ok (s : gostring) (n : Z) :
  0 <= n <= len s -> slice_to s n = Some (firstn (Z.to_nat n) s).
Proof.
  intros H. unfold slice_to, slice.
  replace ((0 <=? 0) && (0 <=? n) && (n <=? len s)) with true
    by (symmetry; rewrite !andb_true_iff, !Z.leb_le; lia).
  simpl skipn. now rewrite Z.sub_0_r.
Qed.

Lemma slice_from_ok (s : gostring) (n : Z) :
  0 <= n <= len s -> slice_from s n = Some (skipn (Z.to_nat n) s).
Proof.
  intros H. unfold slice_from, slice.
  replace ((0 <=? n) && (n <=? len s) && (len s <=? len s)) with true
    by (symmetry; rewrite !andb_true_iff, !Z.leb_le; lia).
  f_equal. apply firstn_all2. rewrite length_skipn. unfold len. lia.
Qed.

Lemma len_firstn (s : gostring) (n : Z) :
  0 <= n <= len s -> len (firstn (Z.to_nat n) s) = n.
Proof. intros H. unfold len in *. rewrite length_firstn. lia. Qed.

Lemma len_skipn (s : gostring) (n : Z) :
  0 <= n <= len s -> len (skipn (Z.to_nat n) s) = len s - n.
Proof. intros H. unfold len in *. rewrite length_skipn. lia. Qed.

Lemma len_string_of_rune (r : Utf8.rune) :
  1 <= len (Utf8.string_of_rune r) <= 4.
Proof.
  unfold Utf8.string_of_rune, Utf8.encode_valid.
  destruct (Utf8.valid_rune r).
  - destruct (r <=? 127); [| destruct (r <=? 2047);
      [| destruct (r <=? 65535)]]; unfold len; simpl; lia.
  - vm_compute. split; discriminate.
Qed.

End StringFacts.

(** ** InputField: SetText and the autocomplete list *)

Section InputFieldFacts.

Import List_ InputField.

Variable NewList : List.

Lemma withAutocomplete_twice i l s l' s' :
  withAutocomplete (withAutocomplete i l s) l' s' = withAutocomplete i l' s'.
Proof. reflexivity. Qed.

Lemma withAutocomplete_same (i : InputField) :
  withAutocomplete i (autocompleteList i) (autocompleteListSuggestion i) = i.
Proof. destruct i; reflexivity. Qed.

Lemma autocompleteChanged_total (i : InputField) (item : ListItem) :
  exists s, autocompleteChanged i item
            = Some (withAutocomplete i (autocompleteList i) s).
Proof.
  unfold autocompleteChanged.
  pose proof (len_nonneg (text i)).
  destruct ((0 <? len (secondaryText item))
            && (len (text i) <? len (secondaryText item))) eqn:E1.
  - apply andb_prop in E1 as [_ E1]. apply Z.ltb_lt in E1.
    rewrite slice_from_ok by lia. simpl.
    eexists. destruct i; reflexivity.
  - destruct (len (mainText item) >? len (text i) + 1) eqn:E2.
    + rewrite Z.gtb_ltb in E2. apply Z.ltb_lt in E2.
      rewrite slice_from_ok by lia. simpl.
      eexists. destruct i; reflexivity.
    + eexists. destruct i; reflexivity.
Qed.

Lemma fire_total (reported : list ListItem) : forall i : InputField,
  exists s, fire i reported = Some (withAutocomplete i (autocompleteList i) s).
Proof.
  induction reported as [| item rest IH]; intros i.
  - exists (autocompleteListSuggestion i). simpl.
    now rewrite withAutocomplete_same.
  - simpl. destruct (autocompleteChanged_total i item) as [s ->]. simpl.
    destruct (IH (withAutocomplete i (autocompleteList i) s)) as [s' ->].
    exists s'. reflexivity.
Qed.

Lemma onList_total (i : InputField) (l : List)
  (op : List -> List * list ListItem) :
  autocompleteList i = Some l ->
  exists s, onList i op = Some (withAutocomplete i (Some (fst (op l))) s).
Proof.
  intros Hl. unfold onList. rewrite Hl.
  destruct (op l) as [l1 reported]. simpl.
  destruct (fire_total reported (set_autocompleteList i (Some l1))) as [s ->].
  exists s. reflexivity.
Qed.

Lemma fillEntries_total (entries : list ListItem) :
  forall (i : InputField) (l : List) (index currentEntry : Z),
  autocompleteList i = Some l ->
  exists l' s c,
    fillEntries i entries index currentEntry
    = Some (withAutocomplete i (Some l') s, c).
Proof.
  induction entries as [| entry rest IH]; intros i l index currentEntry Hl.
  - exists l, (autocompleteListSuggestion i), currentEntry. simpl.
    now rewrite <- Hl, withAutocomplete_same.
  - simpl.
    destruct (onList_total i l (fun l => AddItem l (enable entry)) Hl)
      as [s ->].
    simpl.
    match goal with
    | |- exists _ _ _, fillEntries ?i1 rest ?ix ?ce = _ =>
        destruct (IH i1 (fst (AddItem l (enable entry))) ix ce eq_refl)
          as (l' & s' & c & ->)
    end.
    exists l', s', c. reflexivity.
Qed.

(** [Autocomplete] never panics, and writes nothing but the list and the
    suggestion. *)
Lemma Autocomplete_total (i : InputField) :
  exists l s, Autocomplete NewList i = Some (withAutocomplete i l s).
Proof.
  unfold Autocomplete.
  destruct (autocomplete i) as [generator |].
  - destruct (Z.of_nat (List.length (generator (text i))) =? 0).
    + exists None, []. reflexivity.
    + match goal with
      | |- context [fillEntries ?i1 ?es ?ix ?ce] =>
          destruct (fillEntries_total es i1 _ ix ce eq_refl)
            as (l' & s' & c & ->)
      end.
      simpl.
      destruct (c >=? 0).
      * match goal with
        | |- context [onList ?i2 ?op] =>
            destruct (onList_total i2 l' op eq_refl) as [s'' ->]
        end.
        eexists _, s''. reflexivity.
      * exists (Some l'), s'. reflexivity.
  - exists (autocompleteList i), (autocompleteListSuggestion i).
    now rewrite withAutocomplete_same.
Qed.

End InputFieldFacts.

(** C10: [SetText(t)] sets the text to [t] and the cursor to [len(t)],
    and calls [changed] with [t] whenever it is set; it does so again
    when the same text is set again. *)
Theorem SetText_sets_text_cursor_and_reports
  (i : InputField.InputField) (t : gostring) :
  InputField.text (fst (InputField.SetText i t)) = t /\
  InputField.cursorPos (fst (InputField.SetText i t)) = len t /\
  snd (InputField.SetText i t)
  = (if InputField.changed i then [CallChangedText t] else []) /\
  snd (InputField.SetText (fst (InputField.SetText i t)) t)
  = (if InputField.changed i then [CallChangedText t] else []) /\
  fst (InputField.SetText i t)
  = InputField.update i t (InputField.maskCharacter i) (len t)
      (InputField.autocompleteList i)
      (InputField.autocompleteListSuggestion i)
      (InputField.fieldX i) (InputField.offset i).
Proof. repeat split; reflexivity. Qed.

(** C1 fails on the code.  With the text "foo" and the candidates "foo"
    and "foobar", [Autocomplete] builds the list of both and highlights
    "foo", for which the callback has stored the empty suggestion.  When
    the callback fires for "foobar" it stores "ar", not "bar": so it is
    after Down, which highlights "foobar".  For no candidate of the list
    does the callback store "bar". *)
Theorem autocomplete_suggestion_foo_foobar :
  let i := field (str "foo") (Some fooGenerator) None in
  let opened := withAutocomplete i (Some (fooList 0)) [] in
  InputField.Autocomplete newList0 i = Some opened /\
  option_map InputField.autocompleteListSuggestion
    (InputField.autocompleteChanged opened
       (List_.enable (entry (str "foobar"))))
  = Some (str "ar") /\
  InputField.InputHandler newList0 byteGraphemes byteWidth (press KeyDown)
    opened
  = Some (withAutocomplete i (Some (fooList 1)) (str "ar"), []) /\
  forall item, In item (List_.items (fooList 0)) ->
    option_map InputField.autocompleteListSuggestion
      (InputField.autocompleteChanged opened item)
    <> Some (str "bar").
Proof.
  split; [reflexivity |]. split; [reflexivity |]. split; [reflexivity |].
  intros item [<- | [<- | []]]; vm_compute; discriminate.
Qed.

(** ** InputField: the key handler *)

Section HandlerFacts.

Import List_ InputField.

Variable NewList : List.
Variable graphemes : gostring -> list nat.
Variable stringWidth : gostring -> Z.

Abbreviation handler := (InputHandler NewList graphemes stringWidth).
Abbreviation process := (processKey graphemes stringWidth).

(** When the closure leaves the text as it was, the deferred function
    does nothing. *)
Lemma InputHandler_same_text (event : EventKey) (i i1 : InputField)
  (calls : list Call) :
  process event i = Some (i1, calls) ->
  text i1 = text i ->
  handler event i = Some (i1, calls).
Proof.
  intros Hp Ht. unfold InputHandler, WrapInputHandler.
  rewrite Hp. simpl. unfold triggerChanged.
  rewrite Ht, gostring_eqb_refl. simpl. now rewrite app_nil_r.
Qed.

(** When it changed the text, the deferred function runs [Autocomplete]
    and then calls [changed]. *)
Lemma InputHandler_new_text (event : EventKey) (i i1 : InputField)
  (calls : list Call) :
  process event i = Some (i1, calls) ->
  text i1 <> text i ->
  exists l s,
    Autocomplete NewList i1 = Some (withAutocomplete i1 l s) /\
    handler event i
    = Some (withAutocomplete i1 l s,
            calls ++ call_if (changed i1) (CallChangedText (text i1))).
Proof.
  intros Hp Ht. unfold InputHandler, WrapInputHandler.
  rewrite Hp. simpl. unfold triggerChanged.
  destruct (gostring_eqb (text i1) (text i)) eqn:E.
  - apply gostring_eqb_eq in E. contradiction.
  - destruct (Autocomplete_total NewList i1) as (l & s & Ha).
    exists l, s. rewrite Ha. simpl. split; reflexivity.
Qed.

Lemma process_escape_open (event : EventKey) (i : InputField) (l : List) :
  ev_key event = KeyEscape -> autocompleteList i = Some l ->
  process event i = Some (withAutocomplete i None [], []).
Proof. intros Hk Hl. unfold processKey. rewrite Hk, Hl. reflexivity. Qed.

Lemma Autocomplete_no_candidates (i : InputField)
  (generator : gostring -> list ListItem) :
  autocomplete i = Some generator -> generator (text i) = [] ->
  Autocomplete NewList i = Some (withAutocomplete i None []).
Proof.
  intros Hg He. unfold Autocomplete. rewrite Hg, He. reflexivity.
Qed.

(** In range, [SetCurrentItem] highlights the index it is given. *)
Lemma SetCurrentItem_in_range (l : List) (n : Z) :
  0 <= n < GetItemCount l ->
  fst (SetCurrentItem l n) = with_items l (items l) n.
Proof.
  intros H. unfold SetCurrentItem.
  replace (n <? 0) with false by (symmetry; apply Z.ltb_ge; lia).
  replace (n >=? GetItemCount l) with false
    by (symmetry; rewrite Z.geb_leb; apply Z.leb_gt; lia).
  replace (n <? 0) with false by (symmetry; apply Z.ltb_ge; lia).
  reflexivity.
Qed.




End HandlerFacts.

(** C8: Escape with the autocomplete list open, and a call of
    [Autocomplete] whose generator returns no candidate, set the list to
    nil and the suggestion to the empty string and write no other field
    (so the text and the cursor stay); with Escape, no callback is
    invoked. *)
Theorem escape_or_no_candidates_closes_list
  (NewList : List_.List) (graphemes : gostring -> list nat)
  (stringWidth : gostring -> Z) (i : InputField.InputField) :
  (forall (event : EventKey) (l : List_.List),
     ev_key event = KeyEscape ->
     InputField.autocompleteList i = Some l ->
     InputField.InputHandler NewList graphemes stringWidth event i
     = Some (withAutocomplete i None [], [])) /\
  (forall generator : gostring -> list List_.ListItem,
     InputField.autocomplete i = Some generator ->
     generator (InputField.text i) = [] ->
     InputField.Autocomplete NewList i = Some (withAutocomplete i None [])) /\
  InputField.autocompleteList (withAutocomplete i None []) = None /\
  InputField.autocompleteListSuggestion (withAutocomplete i None []) = [] /\
  InputField.text (withAutocomplete i None []) = InputField.text i /\
  InputField.cursorPos (withAutocomplete i None []) = InputField.cursorPos i.
Proof.
  split; [| split; [| repeat split]].
  - intros event l Hk Hl.
    apply InputHandler_same_text; [| reflexivity].
    now apply process_escape_open with l.
  - intros generator Hg He. now apply Autocomplete_no_candidates with generator.
Qed.

Lemma escape_or_no_candidates_closes_list_witness :
  InputField.InputHandler newList0 byteGraphemes byteWidth (press KeyEscape)
    (field (str "foo") (Some fooGenerator) (Some (fooList 1)))
  = Some (withAutocomplete
            (field (str "foo") (Some fooGenerator) (Some (fooList 1)))
            None [], []) /\
  InputField.Autocomplete newList0
    (field (str "fox") (Some fooGenerator) (Some (fooList 1)))
  = Some (withAutocomplete
            (field (str "fox") (Some fooGenerator) (Some (fooList 1)))
            None []).
Proof.
  split.
  - exact (proj1 (escape_or_no_candidates_closes_list newList0 byteGraphemes
                    byteWidth
                    (field (str "foo") (Some fooGenerator) (Some (fooList 1))))
             (press KeyEscape) (fooList 1) eq_refl eq_refl).
  - exact (proj1 (proj2 (escape_or_no_candidates_closes_list newList0
                           byteGraphemes byteWidth
                           (field (str "fox") (Some fooGenerator)
                              (Some (fooList 1)))))
             fooGenerator eq_refl eq_refl).
Defined.



Section EnterFacts.

Import List_ InputField.

Variable NewList : List.
Variable graphemes : gostring -> list nat.
Variable stringWidth : gostring -> Z.

Lemma process_enter_open (event : EventKey) (i : InputField)
  (l : List) (item : ListItem) :
  ev_key event = KeyEnter ->
  autocompleteList i = Some l ->
  GetCurrentItem l = Some item ->
  processKey graphemes stringWidth event i
  = Some (withAutocomplete (fst (SetText i (selectionOf item))) None [],
          snd (SetText i (selectionOf item))).
Proof.
  intros Hk Hl Hc. unfold processKey. rewrite Hk, Hl, Hc. reflexivity.
Qed.

Lemma Autocomplete_closed_stays_closed (i : InputField) :
  autocompleteList i = None -> autocompleteListSuggestion i = [] ->
  (autocomplete i = None \/
   exists generator, autocomplete i = Some generator
                     /\ generator (text i) = []) ->
  Autocomplete NewList i = Some i.
Proof.
  intros Hl Hs [Hg | (generator & Hg & He)]; unfold Autocomplete; rewrite Hg.
  - reflexivity.
  - rewrite He. simpl. f_equal. destruct i; simpl in *; now subst.
Qed.

End EnterFacts.

Section AutocompleteFacts.

Import List_ InputField.

Variable NewList : List.

Lemma firstMatch_range (t : gostring) (entries : list ListItem) :
  forall index,
  firstMatch t entries index = -1 \/
  index <= firstMatch t entries index
        < index + Z.of_nat (List.length entries).
Proof.
  induction entries as [| e rest IH]; intros index; [now left |].
  cbn [firstMatch List.length]. rewrite Nat2Z.inj_succ.
  destruct (gostring_eqb (mainText e) t); [right; lia |].
  destruct (IH (index + 1)) as [H | H]; [now left | right; lia].
Qed.

Lemma with_items_same (l : List) :
  with_items l (items l) (currentItem l) = l.
Proof. destruct l; reflexivity. Qed.

(** The loop of [Autocomplete] appends the entries, enabled, to the
    list and finds the first entry whose main text is the text. *)
Lemma fillEntries_spec (entries : list ListItem) :
  forall (i : InputField) (l : List) (index currentEntry : Z),
  autocompleteList i = Some l ->
  0 <= index -> -1 <= currentEntry ->
  exists s,
    fillEntries i entries index currentEntry
    = Some (withAutocomplete i
              (Some (with_items l (items l ++ map enable entries)
                       (currentItem l))) s,
            if currentEntry <? 0 then firstMatch (text i) entries index
            else currentEntry).
Proof.
  induction entries as [| entry rest IH]; intros i l index ce Hl Hindex Hce.
  - exists (autocompleteListSuggestion i). cbn [fillEntries map firstMatch].
    rewrite app_nil_r, with_items_same, <- Hl, withAutocomplete_same.
    destruct (Z.ltb_spec ce 0); [| reflexivity].
    repeat f_equal. lia.
  - cbn [fillEntries].
    destruct (onList_total i l (fun l => AddItem l (enable entry)) Hl)
      as [s1 ->].
    cbn [bind].
    set (i1 := withAutocomplete i (Some (fst (AddItem l (enable entry)))) s1).
    change (text i1) with (text i).
    change (mainText (enable entry)) with (mainText entry).
    set (ce1 := if (ce <? 0) && gostring_eqb (mainText entry) (text i)
                then index else ce).
    assert (Hce1 : -1 <= ce1).
    { unfold ce1. destruct ((ce <? 0) && _); lia. }
    destruct (IH i1 (fst (AddItem l (enable entry))) (index + 1) ce1
                eq_refl ltac:(lia) Hce1) as [s2 Hfill].
    exists s2. rewrite Hfill. f_equal. f_equal.
    + unfold i1. rewrite withAutocomplete_twice. f_equal. f_equal.
      cbn [AddItem fst items currentItem with_items map].
      rewrite <- app_assoc. reflexivity.
    + change (text i1) with (text i). cbn [firstMatch]. unfold ce1.
      destruct (Z.ltb_spec ce 0) as [Hneg | Hpos]; cbn [andb].
      * destruct (gostring_eqb (mainText entry) (text i)).
        -- replace (index <? 0) with false
             by (symmetry; apply Z.ltb_ge; lia).
           reflexivity.
        -- replace (ce <? 0) with true by (symmetry; apply Z.ltb_lt; lia).
           reflexivity.
      * replace (ce <? 0) with false by (symmetry; apply Z.ltb_ge; lia).
        reflexivity.
Qed.

(** What [Autocomplete] leaves when the generator has candidates: the
    list open, with exactly the candidates, and the first exact match
    (or else the first candidate) highlighted. *)
Lemma Autocomplete_fills (i : InputField)
  (generator : gostring -> list ListItem) :
  autocomplete i = Some generator ->
  generator (text i) <> [] ->
  let entries := generator (text i) in
  let k := Z.max 0 (firstMatch (text i) entries 0) in
  0 <= k < Z.of_nat (List.length entries) /\
  exists s,
    Autocomplete NewList i
    = Some (withAutocomplete i
              (Some (with_items (listToFill NewList i) (map enable entries) k))
              s).
Proof.
  intros Hg Hne entries k.
  assert (Hlen : (0 < List.length entries)%nat).
  { unfold entries. destruct (generator (text i));
      [contradiction | simpl; lia]. }
  assert (Hk : 0 <= k < Z.of_nat (List.length entries)).
  { unfold k. destruct (firstMatch_range (text i) entries 0) as [H | H].
    - rewrite H. lia.
    - lia. }
  split; [exact Hk |].
  unfold Autocomplete. rewrite Hg. fold entries.
  replace (Z.of_nat (List.length entries) =? 0) with false
    by (symmetry; apply Z.eqb_neq; lia).
  fold (listToFill NewList i).
  set (base := listToFill NewList i).
  destruct (fillEntries_spec entries
              (set_autocompleteList i (Some (Clear base))) (Clear base)
              0 (-1) eq_refl ltac:(lia) ltac:(lia)) as [s1 Hfill].
  rewrite Hfill. cbn [bind].
  change (text (set_autocompleteList i (Some (Clear base)))) with (text i).
  change (-1 <? 0) with true. cbv iota.
  set (filled := with_items (Clear base)
                   (items (Clear base) ++ map enable entries)
                   (currentItem (Clear base))).
  assert (Hfilled : filled = with_items base (map enable entries) 0)
    by reflexivity.
  assert (Hcount : GetItemCount filled = Z.of_nat (List.length entries)).
  { rewrite Hfilled. unfold GetItemCount. cbn [items with_items].
    now rewrite length_map. }
  destruct (firstMatch_range (text i) entries 0) as [Hnone | Hsome].
  - rewrite Hnone. change (-1 >=? 0) with false. cbv iota.
    exists s1. unfold k. rewrite Hnone. reflexivity.
  - replace (firstMatch (text i) entries 0 >=? 0) with true
      by (symmetry; rewrite Z.geb_leb; apply Z.leb_le; lia).
    cbv iota.
    match goal with
    | |- context [onList ?i2 ?op] =>
        destruct (onList_total i2 filled op eq_refl) as [s2 ->]
    end.
    exists s2.
    rewrite SetCurrentItem_in_range by (rewrite Hcount; lia).
    unfold k. rewrite Z.max_r by lia. reflexivity.
Qed.

End AutocompleteFacts.

Section EnterHandler.

Import List_ InputField.

Variable NewList : List.
Variable graphemes : gostring -> list nat.
Variable stringWidth : gostring -> Z.

(** The handler on Enter with the list open, in the three cases of the
    deferred function: it does not run, it runs [Autocomplete] without
    candidates, it runs [Autocomplete] with candidates. *)
Lemma handler_enter_open (event : EventKey) (i : InputField)
  (l : List) (item : ListItem) :
  ev_key event = KeyEnter ->
  autocompleteList i = Some l ->
  GetCurrentItem l = Some item ->
  let accepted := selectionOf item in
  let cleared := withAutocomplete (fst (SetText i accepted)) None [] in
  let reported := call_if (changed i) (CallChangedText accepted) in
  (accepted = text i ->
   InputHandler NewList graphemes stringWidth event i
   = Some (cleared, reported)) /\
  (accepted <> text i ->
   (autocomplete i = None ->
    InputHandler NewList graphemes stringWidth event i
    = Some (cleared, reported ++ reported)) /\
   (forall generator, autocomplete i = Some generator ->
      (generator accepted = [] ->
       InputHandler NewList graphemes stringWidth event i
       = Some (cleared, reported ++ reported)) /\
      (generator accepted <> [] ->
       let k := Z.max 0 (firstMatch accepted (generator accepted) 0) in
       0 <= k < Z.of_nat (List.length (generator accepted)) /\
       exists s,
         InputHandler NewList graphemes stringWidth event i
         = Some (withAutocomplete cleared
                   (Some (with_items
                            (configure NewList
                               (autocompleteListTextColor (colors i))
                               (autocompleteListSelectedTextColor (colors i))
                               (autocompleteListSelectedBackgroundColor
                                  (colors i))
                               (autocompleteListBackgroundColor (colors i)))
                            (map enable (generator accepted)) k))
                   s,
                 reported ++ reported)))).
Proof.
  intros Hk Hl Hc accepted cleared reported.
  pose proof (process_enter_open graphemes stringWidth event i l item
                Hk Hl Hc) as Hp.
  fold accepted in Hp. fold cleared in Hp.
  change (snd (SetText i accepted)) with reported in Hp.
  split.
  - intros E. apply InputHandler_same_text; [exact Hp | exact E].
  - intros Hne.
    assert (Hne' : text cleared <> text i) by exact Hne.
    destruct (InputHandler_new_text NewList graphemes stringWidth event i
                cleared _ Hp Hne') as (l' & s' & Ha & Hh).
    change (changed cleared) with (changed i) in Hh.
    change (text cleared) with accepted in Hh.
    fold reported in Hh.
    split.
    + intros Hg.
      rewrite (Autocomplete_closed_stays_closed NewList cleared) in Ha;
        [| reflexivity | reflexivity | left; exact Hg].
      assert (Hi : cleared = withAutocomplete cleared l' s') by congruence.
      rewrite Hh, <- Hi. reflexivity.
    + intros generator Hg. split.
      * intros He.
        rewrite (Autocomplete_closed_stays_closed NewList cleared) in Ha;
          [| reflexivity | reflexivity
           | right; exists generator; split; [exact Hg | exact He]].
        assert (Hi : cleared = withAutocomplete cleared l' s') by congruence.
        rewrite Hh, <- Hi. reflexivity.
      * intros Hcand k.
        destruct (Autocomplete_fills NewList cleared generator Hg Hcand)
          as [Hk' [s Hfill]].
        split; [exact Hk' |].
        exists s. rewrite Hh. rewrite Hfill in Ha.
        apply (f_equal (fun o => match o with
                                 | Some v => v
                                 | None => cleared
                                 end)) in Ha.
        cbv beta iota in Ha. rewrite <- Ha. reflexivity.
Qed.

End EnterHandler.

(** C6: Enter with the autocomplete list open.  The branch of the
    handler does what the claim says: it replaces the text by the
    highlighted candidate's secondary text if that is not empty and by
    its main text otherwise, puts the cursor at its end, clears the list
    and the suggestion, and calls neither [done] nor [finished].  But
    the claim fails for the handler as a whole.  When the accepted text
    differs from the text that was there, the deferred function of the
    handler runs [Autocomplete] on the new text and calls [changed] a
    second time; and when the generator has candidates for the accepted
    text, the list is open again when the handler returns, holding
    exactly these candidates.  The list and the suggestion are clear on
    return exactly when the accepted text is the text that was there, or
    no generator is registered, or the generator has no candidate for
    the accepted text. *)
Theorem enter_accepts_highlighted_candidate
  (NewList : List_.List) (graphemes : gostring -> list nat)
  (stringWidth : gostring -> Z)
  (i : InputField.InputField) (event : EventKey)
  (l : List_.List) (item : List_.ListItem) :
  ev_key event = KeyEnter ->
  InputField.autocompleteList i = Some l ->
  List_.GetCurrentItem l = Some item ->
  let accepted := selectionOf item in
  let cleared :=
    withAutocomplete (fst (InputField.SetText i accepted)) None [] in
  let reported :=
    call_if (InputField.changed i) (CallChangedText accepted) in
  InputField.text cleared = accepted /\
  InputField.cursorPos cleared = len accepted /\
  InputField.autocompleteList cleared = None /\
  InputField.autocompleteListSuggestion cleared = [] /\
  InputField.processKey graphemes stringWidth event i
  = Some (cleared, reported) /\
  (accepted = InputField.text i ->
   InputField.InputHandler NewList graphemes stringWidth event i
   = Some (cleared, reported)) /\
  (accepted <> InputField.text i ->
   (InputField.autocomplete i = None ->
    InputField.InputHandler NewList graphemes stringWidth event i
    = Some (cleared, reported ++ reported)) /\
   (forall generator, InputField.autocomplete i = Some generator ->
      (generator accepted = [] ->
       InputField.InputHandler NewList graphemes stringWidth event i
       = Some (cleared, reported ++ reported)) /\
      (generator accepted <> [] ->
       let k := Z.max 0 (firstMatch accepted (generator accepted) 0) in
       0 <= k < Z.of_nat (List.length (generator accepted)) /\
       exists s,
         InputField.InputHandler NewList graphemes stringWidth event i
         = Some (withAutocomplete cleared
                   (Some (List_.with_items
                            (List_.configure NewList
                               (InputField.autocompleteListTextColor
                                  (InputField.colors i))
                               (InputField.autocompleteListSelectedTextColor
                                  (InputField.colors i))
                               (InputField.autocompleteListSelectedBackgroundColor
                                  (InputField.colors i))
                               (InputField.autocompleteListBackgroundColor
                                  (InputField.colors i)))
                            (map List_.enable (generator accepted)) k))
                   s,
                 reported ++ reported)))).
Proof.
  intros Hk Hl Hc accepted cleared reported.
  split; [reflexivity |]. split; [reflexivity |].
  split; [reflexivity |]. split; [reflexivity |].
  split.
  - exact (process_enter_open graphemes stringWidth event i l item Hk Hl Hc).
  - exact (handler_enter_open NewList graphemes stringWidth event i l item
             Hk Hl Hc).
Qed.

Lemma enter_accepts_highlighted_candidate_witness :
  exists s,
    InputField.InputHandler newList0 byteGraphemes byteWidth (press KeyEnter)
      (field (str "foo") (Some prefixGenerator) (Some (fooList 1)))
    = Some (withAutocomplete
              (withAutocomplete
                 (fst (InputField.SetText
                         (field (str "foo") (Some prefixGenerator)
                            (Some (fooList 1)))
                         (str "foobar")))
                 None [])
              (Some (List_.with_items (List_.configure newList0 9 11 12 10)
                       [List_.enable (entry (str "foobar"))] 0))
              s,
            [CallChangedText (str "foobar"); CallChangedText (str "foobar")]).
Proof.
  refine (proj2
            (proj2
               (proj2
                  (proj2 (proj2 (proj2 (proj2 (proj2 (proj2
                     (enter_accepts_highlighted_candidate newList0
                        byteGraphemes byteWidth
                        (field (str "foo") (Some prefixGenerator)
                           (Some (fooList 1)))
                        (press KeyEnter) (fooList 1)
                        (List_.enable (entry (str "foobar")))
                        eq_refl eq_refl eq_refl))))))
                     _)
                  prefixGenerator eq_refl)
               _)).
  - vm_compute. discriminate.
  - vm_compute. discriminate.
Defined.

(** C6, as written, fails: with a generator that has a candidate for
    the accepted text, the list is open again when the handler returns.
    Here the text is "foo", "foobar" is highlighted, and the generator
    proposes the candidates that extend the text. *)
Lemma enter_reopens_list :
  option_map
    (fun r => (InputField.text (fst r),
               option_map List_.items (InputField.autocompleteList (fst r)),
               snd r))
    (InputField.InputHandler newList0 byteGraphemes byteWidth (press KeyEnter)
       (field (str "foo") (Some prefixGenerator) (Some (fooList 1))))
  = Some (str "foobar",
          Some [List_.enable (entry (str "foobar"))],
          [CallChangedText (str "foobar"); CallChangedText (str "foobar")]).
Proof. reflexivity. Qed.

(** ** Grapheme clusters *)

Section ClusterFacts.

Import InputField.

Variable graphemes : gostring -> list nat.
Variable stringWidth : gostring -> Z.

Lemma clustersFrom_first (lens : list nat) (rest : gostring) (pos column : Z)
  (c : Cluster) (r : list Cluster) :
  Forall (fun n => (1 <= n)%nat) lens ->
  clustersFrom stringWidth rest lens pos column = c :: r ->
  textPos c = pos /\
  1 <= textWidth c <= Z.of_nat (list_sum lens).
Proof.
  intros Hl H. destruct lens as [| n lens']; [discriminate |].
  inversion Hl; subst. simpl in H. injection H as <- _. simpl. lia.
Qed.

Lemma clustersFrom_last (lens : list nat) :
  forall (rest : gostring) (pos column : Z) (c : Cluster) (r : list Cluster),
  Forall (fun n => (1 <= n)%nat) lens ->
  rev (clustersFrom stringWidth rest lens pos column) = c :: r ->
  pos <= textPos c /\ 1 <= textWidth c /\
  textPos c + textWidth c = pos + Z.of_nat (list_sum lens).
Proof.
  induction lens as [| n lens' IH]; intros rest pos column c r Hl H;
    [discriminate |].
  inversion Hl as [| ? ? Hn Hl']; subst.
  cbn [clustersFrom rev] in H.
  destruct (rev (clustersFrom stringWidth (skipn n rest) lens'
                   (pos + Z.of_nat n)
                   (column + stringWidth (firstn n rest)))) as [| c' r'] eqn:E.
  - simpl in H. injection H as <- _.
    assert (lens' = []).
    { destruct lens'; [reflexivity |]. simpl in E.
      apply (f_equal (@List.length _)) in E.
      rewrite length_app in E. simpl in E. lia. }
    subst. simpl. lia.
  - simpl in H. injection H as -> _.
    destruct (IH _ _ _ _ _ Hl' E) as (H1 & H2 & H3).
    change (list_sum (n :: lens')) with (n + list_sum lens')%nat. lia.
Qed.

Hypothesis graphemes_partition : partitions graphemes.

Lemma clusters_first (s : gostring) (c : Cluster) (r : list Cluster) :
  clusters graphemes stringWidth s = c :: r ->
  textPos c = 0 /\ 1 <= textWidth c <= len s.
Proof.
  intros H. destruct (graphemes_partition s) as [Hl Hs].
  destruct (clustersFrom_first _ _ _ _ _ _ Hl H) as [H1 H2].
  unfold len. rewrite <- Hs. lia.
Qed.

Lemma clusters_last (s : gostring) (c : Cluster) (r : list Cluster) :
  rev (clusters graphemes stringWidth s) = c :: r ->
  0 <= textPos c /\ 1 <= textWidth c /\ textPos c + textWidth c = len s.
Proof.
  intros H. destruct (graphemes_partition s) as [Hl Hs].
  destruct (clustersFrom_last _ _ _ _ _ _ Hl H) as (H1 & H2 & H3).
  unfold len. rewrite <- Hs. lia.
Qed.

(** Every cluster lies inside the string. *)
Lemma clustersFrom_inside (lens : list nat) :
  forall (rest : gostring) (pos column : Z) (c : Cluster),
  In c (clustersFrom stringWidth rest lens pos column) ->
  pos <= textPos c /\ 0 <= textWidth c /\
  textPos c + textWidth c <= pos + Z.of_nat (list_sum lens).
Proof.
  induction lens as [| n lens' IH]; intros rest pos column c H;
    [contradiction |].
  cbn [clustersFrom] in H. destruct H as [<- | H].
  - simpl. lia.
  - destruct (IH _ _ _ _ H) as (H1 & H2 & H3).
    change (list_sum (n :: lens')) with (n + list_sum lens')%nat. lia.
Qed.

Lemma clusters_inside (s : gostring) (c : Cluster) :
  In c (clusters graphemes stringWidth s) ->
  0 <= textPos c /\ 0 <= textWidth c /\ textPos c + textWidth c <= len s.
Proof.
  intros H. destruct (graphemes_partition s) as [_ Hs].
  destruct (clustersFrom_inside _ _ _ _ _ H) as (H1 & H2 & H3).
  unfold len. rewrite <- Hs. lia.
Qed.

End ClusterFacts.

Lemma byteGraphemes_partition : partitions byteGraphemes.
Proof.
  intros s. unfold byteGraphemes. induction s as [| b s [IH1 IH2]]; simpl.
  - split; [constructor | reflexivity].
  - split; [constructor; [lia | exact IH1] | now rewrite IH2].
Qed.

(** ** InputField: insertion and deletion *)

Section EditFacts.

Import List_ InputField.

Variable NewList : List.
Variable graphemes : gostring -> list nat.
Variable stringWidth : gostring -> Z.

Abbreviation handler := (InputHandler NewList graphemes stringWidth).
Abbreviation process := (processKey graphemes stringWidth).

Lemma len_insertAt (i : InputField) (r : Utf8.rune) :
  cursorInText i ->
  len (insertAt i r) = len (text i) + len (Utf8.string_of_rune r).
Proof.
  intros H. unfold insertAt. rewrite !len_app.
  rewrite len_firstn, len_skipn by exact H. lia.
Qed.

Lemma add_spec (i : InputField) (r : Utf8.rune) :
  cursorInText i ->
  add i r = if rejects i r then Some (i, false) else Some (inserted i r, true).
Proof.
  intros H. unfold add.
  rewrite slice_to_ok, slice_from_ok by exact H. reflexivity.
Qed.

Lemma process_insertion (event : EventKey) (i : InputField) :
  isInsertion event = true ->
  process event i = (r <- add i (ev_rune event) ;; Some (fst r, [])).
Proof.
  unfold isInsertion, processKey.
  destruct (ev_key event); try discriminate.
  destruct (hasAlt event); [| reflexivity]. simpl. intros H.
  apply negb_true_iff in H. rewrite !orb_false_iff in H.
  destruct H as [[[-> ->] ->] ->]. reflexivity.
Qed.

Lemma withAutocomplete_cursorInText (i : InputField) l s :
  cursorInText i -> cursorInText (withAutocomplete i l s).
Proof. exact (fun H => H). Qed.

(** The handler keeps the invariant whenever the closure does. *)
Lemma handler_keeps_cursorInText (event : EventKey) (i i1 : InputField)
  (calls : list Call) :
  process event i = Some (i1, calls) ->
  cursorInText i1 ->
  exists i' calls', handler event i = Some (i', calls') /\ cursorInText i'.
Proof.
  intros Hp Hinv. unfold InputHandler, WrapInputHandler.
  rewrite Hp. simpl. unfold triggerChanged.
  destruct (negb (gostring_eqb (text i1) (text i))).
  - destruct (Autocomplete_total NewList i1) as (l & s & ->). simpl.
    eexists _, _. split; [reflexivity |].
    now apply withAutocomplete_cursorInText.
  - eexists _, _. split; [reflexivity | exact Hinv].
Qed.

Hypothesis graphemes_partition : partitions graphemes.

Lemma process_backspace (event : EventKey) (i : InputField) :
  ev_key event = KeyBackspace \/ ev_key event = KeyBackspace2 ->
  cursorInText i ->
  exists i1, process event i = Some (i1, []) /\ cursorInText i1.
Proof.
  intros Hk Hinv. unfold cursorInText in Hinv.
  assert (Hp : process event i =
    (prefix <- slice_to (text i) (cursorPos i) ;;
     r <- iterateStringReverse graphemes stringWidth prefix
            (fun c i =>
               before <- slice_to (text i) (textPos c) ;;
               after <- slice_from (text i) (textPos c + textWidth c) ;;
               Some (set_cursorPos (set_text i (before ++ after))
                       (cursorPos i - textWidth c), true))
            i ;;
     let i1 := fst r in
     Some (if offset i1 >=? cursorPos i1 then set_offset i1 0 else i1, []))).
  { unfold processKey. destruct Hk as [-> | ->]; reflexivity. }
  rewrite Hp. rewrite slice_to_ok by exact Hinv. cbn [bind].
  unfold iterateStringReverse.
  destruct (rev (clusters graphemes stringWidth
                   (firstn (Z.to_nat (cursorPos i)) (text i))))
    as [| c r] eqn:E.
  - cbn [iterate bind fst].
    eexists. split; [reflexivity |].
    destruct (offset i >=? cursorPos i); exact Hinv.
  - destruct (clusters_last graphemes stringWidth graphemes_partition _ _ _ E)
      as (H1 & H2 & H3).
    rewrite len_firstn in H3 by exact Hinv.
    cbn [iterate].
    rewrite slice_to_ok, slice_from_ok by lia. cbn [bind fst snd].
    eexists. split; [reflexivity |].
    match goal with
    | |- cursorInText (if ?b then _ else _) => destruct b
    end; unfold cursorInText; simpl; rewrite len_app;
      rewrite len_firstn, len_skipn by lia; lia.
Qed.

Lemma process_delete (event : EventKey) (i : InputField) :
  ev_key event = KeyDelete ->
  cursorInText i ->
  exists i1, process event i = Some (i1, []) /\ cursorInText i1.
Proof.
  intros Hk Hinv. unfold cursorInText in Hinv.
  unfold processKey. rewrite Hk.
  rewrite slice_from_ok by exact Hinv. cbn [bind].
  unfold iterateString.
  destruct (clusters graphemes stringWidth
              (skipn (Z.to_nat (cursorPos i)) (text i))) as [| c r] eqn:E.
  - cbn [iterate bind fst]. eexists. split; [reflexivity | exact Hinv].
  - destruct (clusters_first graphemes stringWidth graphemes_partition _ _ _ E)
      as (H1 & H2).
    rewrite len_skipn in H2 by exact Hinv.
    cbn [iterate].
    rewrite slice_to_ok, slice_from_ok by lia. cbn [bind fst snd].
    eexists. split; [reflexivity |].
    unfold cursorInText; simpl; rewrite len_app;
      rewrite len_firstn, len_skipn by lia; lia.
Qed.

End EditFacts.

Section WordFacts.

Lemma len_removeRightWord (s : gostring) :
  0 <= len (Regex.removeRightWord s) <= len s.
Proof.
  unfold Regex.removeRightWord, len.
  destruct (0 <? Regex.wordRun (rev s))%nat; rewrite length_firstn; lia.
Qed.

Lemma len_removeLeftWord (s : gostring) :
  0 <= len (Regex.removeLeftWord s) <= len s.
Proof.
  unfold Regex.removeLeftWord, len.
  destruct s as [| b s']; [simpl; lia |].
  destruct (Regex.isWord b); rewrite length_skipn; lia.
Qed.

End WordFacts.

Section EditKeys.

Import List_ InputField.

Variable NewList : List.
Variable graphemes : gostring -> list nat.
Variable stringWidth : gostring -> Z.
Hypothesis graphemes_partition : partitions graphemes.

Lemma process_rune (event : EventKey) (i : InputField) :
  ev_key event = KeyRune ->
  cursorInText i ->
  exists i1, processKey graphemes stringWidth event i = Some (i1, [])
             /\ cursorInText i1.
Proof.
  intros Hk Hinv.
  assert (Hadd : exists i1,
    (r <- add i (ev_rune event) ;; Some (fst r, @nil Call)) = Some (i1, [])
    /\ cursorInText i1).
  { rewrite add_spec by exact Hinv.
    destruct (rejects i (ev_rune event)); simpl.
    - exists i. split; [reflexivity | exact Hinv].
    - eexists. split; [reflexivity |].
      unfold cursorInText, inserted. simpl.
      rewrite len_insertAt by exact Hinv.
      pose proof (len_string_of_rune (ev_rune event)).
      unfold cursorInText in Hinv. lia. }
  pose proof (len_nonneg (text i)) as Hlen.
  unfold cursorInText in Hinv.
  unfold processKey. rewrite Hk.
  destruct (hasAlt event); [| exact Hadd].
  destruct (ev_rune event =? 97).
  { eexists. split; [reflexivity |]. unfold cursorInText. simpl. lia. }
  destruct (ev_rune event =? 101).
  { eexists. split; [reflexivity |]. unfold cursorInText. simpl. lia. }
  destruct (ev_rune event =? 98).
  { unfold moveWordLeft, quiet. rewrite slice_to_ok by exact Hinv. simpl.
    eexists. split; [reflexivity |]. unfold cursorInText. simpl.
    pose proof (len_removeRightWord
                  (firstn (Z.to_nat (cursorPos i)) (text i))) as H.
    rewrite len_firstn in H by exact Hinv. lia. }
  destruct (ev_rune event =? 102).
  { unfold moveWordRight, quiet. rewrite slice_from_ok by exact Hinv. simpl.
    eexists. split; [reflexivity |]. unfold cursorInText. simpl.
    pose proof (len_removeLeftWord
                  (skipn (Z.to_nat (cursorPos i)) (text i))) as H.
    rewrite len_skipn in H by exact Hinv. lia. }
  exact Hadd.
Qed.

Lemma process_kill (event : EventKey) (i : InputField) :
  ev_key event = KeyCtrlK \/ ev_key event = KeyCtrlW
  \/ ev_key event = KeyCtrlU ->
  cursorInText i ->
  exists i1, processKey graphemes stringWidth event i = Some (i1, [])
             /\ cursorInText i1.
Proof.
  intros Hk Hinv. unfold cursorInText in Hinv.
  unfold processKey. destruct Hk as [-> | [-> | ->]].
  - rewrite slice_to_ok by exact Hinv. simpl.
    eexists. split; [reflexivity |]. unfold cursorInText. simpl.
    rewrite len_firstn by exact Hinv. lia.
  - rewrite slice_to_ok, slice_from_ok by exact Hinv. simpl.
    eexists. split; [reflexivity |]. unfold cursorInText. simpl.
    rewrite len_app, len_skipn by exact Hinv.
    pose proof (len_removeRightWord
                  (firstn (Z.to_nat (cursorPos i)) (text i))) as H.
    rewrite len_firstn in H by exact Hinv. lia.
  - eexists. split; [reflexivity |]. unfold cursorInText. simpl.
    unfold len. simpl. lia.
Qed.

Lemma process_edit (event : EventKey) (i : InputField) :
  isEdit event = true ->
  cursorInText i ->
  exists i1, processKey graphemes stringWidth event i = Some (i1, [])
             /\ cursorInText i1.
Proof.
  unfold isEdit. intros Hk Hinv.
  destruct (ev_key event) eqn:E; try discriminate Hk.
  - now apply process_rune.
  - apply process_kill; [| exact Hinv]. now left.
  - apply process_kill; [| exact Hinv]. now right; right.
  - apply process_kill; [| exact Hinv]. now right; left.
  - apply process_backspace; [exact graphemes_partition | | exact Hinv].
    now left.
  - apply process_backspace; [exact graphemes_partition | | exact Hinv].
    now right.
  - now apply process_delete.
Qed.

Lemma handler_edit (event : EventKey) (i : InputField) :
  isEdit event = true ->
  cursorInText i ->
  exists i' calls,
    InputHandler NewList graphemes stringWidth event i = Some (i', calls)
    /\ cursorInText i'.
Proof.
  intros Hk Hinv.
  destruct (process_edit event i Hk Hinv) as (i1 & Hp & Hinv1).
  exact (handler_keeps_cursorInText NewList graphemes stringWidth
           event i i1 [] Hp Hinv1).
Qed.

Lemma trace_edit (events : list EventKey) : forall i : InputField,
  forallb isEdit events = true ->
  cursorInText i ->
  exists states,
    trace NewList graphemes stringWidth i events = Some states /\
    List.length states = List.length events /\
    Forall cursorInText states.
Proof.
  induction events as [| event rest IH]; intros i Hk Hinv.
  - exists []. repeat split. constructor.
  - simpl in Hk. apply andb_prop in Hk as [Hk Hrest].
    destruct (handler_edit event i Hk Hinv) as (i1 & calls & Hh & Hinv1).
    destruct (IH i1 Hrest Hinv1) as (states & Ht & Hlen & Hall).
    exists (i1 :: states). cbn [trace]. rewrite Hh. cbn [bind fst].
    rewrite Ht. cbn [bind]. repeat split.
    + simpl. now rewrite Hlen.
    + now constructor.
Qed.

Lemma last_cons_default {A : Type} (l : list A) : forall a d : A,
  last (a :: l) d = last l a.
Proof.
  induction l as [| b l IH]; intros a d; [reflexivity |].
  change (last (a :: b :: l) d) with (last (b :: l) d).
  now rewrite !IH.
Qed.

Lemma run_trace (events : list EventKey) : forall (i : InputField) states,
  trace NewList graphemes stringWidth i events = Some states ->
  exists calls,
    run NewList graphemes stringWidth i events = Some (last states i, calls).
Proof.
  induction events as [| event rest IH]; intros i states Ht.
  - injection Ht as <-. exists []. reflexivity.
  - cbn [trace] in Ht. cbn [run].
    destruct (InputHandler NewList graphemes stringWidth event i)
      as [[i1 calls1] |]; [| discriminate].
    cbn [bind fst snd] in *.
    destruct (trace NewList graphemes stringWidth i1 rest) as [states1 |] eqn:E; [| discriminate].
    cbn [bind] in Ht. injection Ht as <-.
    destruct (IH i1 states1 E) as [calls Hr].
    rewrite Hr. cbn [bind fst snd]. eexists. f_equal. f_equal.
    symmetry. apply last_cons_default.
Qed.

End EditKeys.

(** C4: for every sequence of insert and delete key events (a rune,
    Backspace, Delete, Ctrl-K, Ctrl-W, Ctrl-U) handled from a state with
    [0 <= cursorPos <= len(text)], no event panics and the state after
    each event has [0 <= cursorPos <= len(text)].  The segmentation into
    grapheme clusters is assumed to cut a string into non-empty pieces. *)
Theorem cursor_stays_in_text
  (NewList : List_.List) (graphemes : gostring -> list nat)
  (stringWidth : gostring -> Z)
  (i : InputField.InputField) (events : list EventKey) :
  partitions graphemes ->
  forallb isEdit events = true ->
  0 <= InputField.cursorPos i <= len (InputField.text i) ->
  exists states calls,
    trace NewList graphemes stringWidth i events = Some states /\
    List.length states = List.length events /\
    Forall (fun s => 0 <= InputField.cursorPos s <= len (InputField.text s))
      states /\
    InputField.run NewList graphemes stringWidth i events
    = Some (last states i, calls).
Proof.
  intros Hg Hk Hinv.
  destruct (trace_edit NewList graphemes stringWidth Hg events i Hk Hinv)
    as (states & Ht & Hlen & Hall).
  destruct (run_trace NewList graphemes stringWidth events i states Ht)
    as [calls Hr].
  exists states, calls. repeat split; assumption.
Qed.

Lemma cursor_stays_in_text_witness :
  exists states calls,
    trace newList0 byteGraphemes byteWidth
      (field (str "foo bar") (Some fooGenerator) None)
      [type 33; press KeyBackspace; press KeyCtrlW; press KeyDelete;
       press KeyCtrlK; type 233; press KeyCtrlU]
    = Some states /\
    List.length states = 7%nat /\
    Forall (fun s => 0 <= InputField.cursorPos s <= len (InputField.text s))
      states /\
    InputField.run newList0 byteGraphemes byteWidth
      (field (str "foo bar") (Some fooGenerator) None)
      [type 33; press KeyBackspace; press KeyCtrlW; press KeyDelete;
       press KeyCtrlK; type 233; press KeyCtrlU]
    = Some (last states (field (str "foo bar") (Some fooGenerator) None),
            calls).
Proof.
  refine (cursor_stays_in_text newList0 byteGraphemes byteWidth
            (field (str "foo bar") (Some fooGenerator) None)
            [type 33; press KeyBackspace; press KeyCtrlW; press KeyDelete;
             press KeyCtrlK; type 233; press KeyCtrlU]
            byteGraphemes_partition eq_refl _).
  vm_compute. split; discriminate.
Defined.

(** C5: a rune that reaches the insertion closure, on a field whose
    cursor is inside the text.  If an acceptance function is registered
    and returns false for the text that would result, the handler leaves
    every field as it was and makes no call.  If none is registered, or
    it returns true, the UTF-8 bytes of the rune (one to four bytes) are
    spliced into the text at the cursor and the cursor advances by their
    number; the offset and the mask stay, and [changed], if set, is
    called with the new text. *)
Theorem rune_insertion_accepted_or_rejected
  (NewList : List_.List) (graphemes : gostring -> list nat)
  (stringWidth : gostring -> Z)
  (i : InputField.InputField) (event : EventKey) :
  isInsertion event = true ->
  0 <= InputField.cursorPos i <= len (InputField.text i) ->
  let r := ev_rune event in
  let prefix := firstn (Z.to_nat (InputField.cursorPos i)) (InputField.text i) in
  let suffix := skipn (Z.to_nat (InputField.cursorPos i)) (InputField.text i) in
  let newText := prefix ++ Utf8.string_of_rune r ++ suffix in
  prefix ++ suffix = InputField.text i /\
  len prefix = InputField.cursorPos i /\
  1 <= len (Utf8.string_of_rune r) <= 4 /\
  ((exists acceptFunc,
      InputField.accept i = Some acceptFunc /\ acceptFunc newText r = false) ->
   InputField.InputHandler NewList graphemes stringWidth event i
   = Some (i, [])) /\
  ((InputField.accept i = None \/
    exists acceptFunc,
      InputField.accept i = Some acceptFunc /\ acceptFunc newText r = true) ->
   exists i',
     InputField.InputHandler NewList graphemes stringWidth event i
     = Some (i', if InputField.changed i then [CallChangedText newText]
                 else []) /\
     InputField.text i' = newText /\
     InputField.cursorPos i'
     = InputField.cursorPos i + len (Utf8.string_of_rune r) /\
     InputField.offset i' = InputField.offset i /\
     InputField.maskCharacter i' = InputField.maskCharacter i).
Proof.
  intros Hk Hinv r prefix suffix newText.
  pose proof (len_string_of_rune r) as Hr.
  pose proof (process_insertion graphemes stringWidth event i Hk) as Hp.
  rewrite add_spec in Hp by exact Hinv. fold r in Hp.
  split; [apply firstn_skipn |].
  split; [apply len_firstn; exact Hinv |].
  split; [exact Hr |].
  split.
  - intros (acceptFunc & Ha & Hf).
    assert (Hrej : rejects i r = true).
    { unfold rejects. rewrite Ha. fold newText in Hf |- *.
      unfold insertAt. fold prefix suffix newText. now rewrite Hf. }
    rewrite Hrej in Hp. simpl in Hp.
    now apply InputHandler_same_text.
  - intros Hacc.
    assert (Hrej : rejects i r = false).
    { unfold rejects. destruct Hacc as [-> | (acceptFunc & -> & Hf)];
        [reflexivity |].
      unfold insertAt. fold prefix suffix newText. now rewrite Hf. }
    rewrite Hrej in Hp. simpl in Hp.
    assert (Hne : InputField.text (inserted i r) <> InputField.text i).
    { intros H. apply (f_equal len) in H. simpl in H.
      rewrite len_insertAt in H by exact Hinv. lia. }
    destruct (InputHandler_new_text NewList graphemes stringWidth event i _ _
                Hp Hne) as (l & s & _ & Hh).
    eexists. split; [exact Hh |]. repeat split.
Qed.

Lemma rune_insertion_accepted_or_rejected_witness :
  InputField.InputHandler newList0 byteGraphemes byteWidth (type 120)
    (withAccept (field (str "12") None None) digitsOnly)
  = Some (withAccept (field (str "12") None None) digitsOnly, []) /\
  exists i',
    InputField.InputHandler newList0 byteGraphemes byteWidth (type 51)
      (withAccept (field (str "12") None None) digitsOnly)
    = Some (i', [CallChangedText (str "123")]) /\
    InputField.text i' = str "123" /\
    InputField.cursorPos i' = 3 /\
    InputField.offset i' = 0 /\
    InputField.maskCharacter i' = 0.
Proof.
  split.
  - refine (proj1 (proj2 (proj2 (proj2
              (rune_insertion_accepted_or_rejected newList0 byteGraphemes
                 byteWidth
                 (withAccept (field (str "12") None None) digitsOnly)
                 (type 120) eq_refl _)))) _).
    + vm_compute. split; discriminate.
    + exists digitsOnly. split; reflexivity.
  - refine (proj2 (proj2 (proj2 (proj2
              (rune_insertion_accepted_or_rejected newList0 byteGraphemes
                 byteWidth
                 (withAccept (field (str "12") None None) digitsOnly)
                 (type 51) eq_refl _)))) _).
    + vm_compute. split; discriminate.
    + right. exists digitsOnly. split; reflexivity.
Defined.

(** ** Runes as grapheme clusters *)

Section RuneFacts.

Lemma decodeSize_bounds (s : gostring) :
  s <> [] -> (1 <= Utf8.decodeSize s <= List.length s)%nat.
Proof.
  intros Hs. destruct s as [| b0 rest]; [contradiction |].
  unfold Utf8.decodeSize.
  repeat match goal with
         | |- context [if ?b then _ else _] => destruct b
         | |- context [match ?l with [] => _ | _ :: _ => _ end] => destruct l
         end; simpl; lia.
Qed.

Lemma runeSizesFrom_partition (s : gostring) : forall skip : nat,
  (skip <= List.length s)%nat ->
  Forall (fun n => (1 <= n)%nat) (Utf8.runeSizesFrom skip s) /\
  (list_sum (Utf8.runeSizesFrom skip s) + skip = List.length s)%nat.
Proof.
  induction s as [| b s IH]; intros skip Hskip.
  - simpl in *. split; [constructor | lia].
  - cbn [Utf8.runeSizesFrom]. destruct skip as [| k].
    + pose proof (decodeSize_bounds (b :: s) ltac:(discriminate)) as Hd.
      cbn [List.length] in Hd.
      destruct (IH (Utf8.decodeSize (b :: s) - 1)%nat ltac:(lia))
        as [Hall Hsum].
      split; [constructor; [lia | exact Hall] |].
      change (list_sum (?n :: ?l)) with (n + list_sum l)%nat.
      cbn [List.length]. lia.
    + cbn [List.length] in *.
      destruct (IH k ltac:(lia)) as [Hall Hsum].
      split; [exact Hall | lia].
Qed.

Lemma runeGraphemes_partition : partitions runeGraphemes.
Proof.
  intros s. unfold runeGraphemes, Utf8.runeSizes.
  destruct (runeSizesFrom_partition s 0 ltac:(lia)) as [Hall Hsum].
  split; [exact Hall | lia].
Qed.

End RuneFacts.

(** ** InputField: Draw and the mask *)

Section DrawFacts.

Import List_ InputField.

Variable graphemes : gostring -> list nat.
Variable stringWidth : gostring -> Z.
Variable ColorUnset : Z.
Variable Escape : gostring -> gostring.
Variable TaggedStringWidth : gostring -> Z.
Variable printedWidth : gostring -> Z -> Z -> Z -> Align -> Z.

Lemma slice_ok (s : gostring) (lo hi : Z) :
  0 <= lo <= hi -> hi <= len s ->
  slice s lo hi = Some (firstn (Z.to_nat (hi - lo)) (skipn (Z.to_nat lo) s)).
Proof.
  intros H1 H2. unfold slice.
  replace ((0 <=? lo) && (lo <=? hi) && (hi <=? len s)) with true
    by (symmetry; rewrite !andb_true_iff, !Z.leb_le; lia).
  reflexivity.
Qed.

Lemma iterate_invariant {S : Type} (P : S -> Prop) (cs : list Cluster)
  (callback : Cluster -> S -> option (S * bool)) :
  (forall c st, In c cs -> P st ->
     exists r, callback c st = Some r /\ P (fst r)) ->
  forall st, P st ->
  exists r, iterate cs callback st = Some r /\ P (fst r).
Proof.
  induction cs as [| c cs IH]; intros Hcb st Hst.
  - exists (st, false). split; [reflexivity | exact Hst].
  - destruct (Hcb c st (or_introl eq_refl) Hst) as ([st1 b] & Hc & H1).
    cbn [iterate]. rewrite Hc. cbn [bind fst snd].
    destruct b.
    + exists (st1, true). split; [reflexivity | exact H1].
    + apply IH; [| exact H1].
      intros c' st' Hin. apply Hcb. now right.
Qed.

Lemma cursorStep_total (cursor : Z) (s : gostring) (column : Z) :
  exists r, iterateString graphemes stringWidth s (cursorStep cursor) column
            = Some r.
Proof.
  destruct (iterate_invariant (fun _ => True)
              (clusters graphemes stringWidth s) (cursorStep cursor))
    with (st := column) as (r & Hr & _); [| exact I | now exists r].
  intros c st _ _. unfold cursorStep.
  destruct (textPos c >=? cursor); eexists; split; [reflexivity | exact I
                                                   | reflexivity | exact I].
Qed.

Hypothesis graphemes_partition : partitions graphemes.

Lemma set_cursorPos_same (i : InputField) : set_cursorPos i (cursorPos i) = i.
Proof. destruct i; reflexivity. Qed.

(** The iteration of the branch for a text that does not fit writes the
    offset only, and the text drawn starts at that offset. *)
Lemma scrollText_exact (i : InputField) (shown : gostring) (shiftLeft : Z) :
  0 <= offset i <= len shown ->
  exists o column,
    scrollText graphemes stringWidth Escape i shown shiftLeft
    = Some (set_offset i o, Escape (skipn (Z.to_nat o) shown), column) /\
    0 <= o <= len shown.
Proof.
  intros Hoff. unfold scrollText, iterateString.
  destruct (iterate_invariant
              (fun st : Z * Z * Z => 0 <= fst (fst st) <= len shown)
              (clusters graphemes stringWidth shown)
              (scrollStep (offset i) (cursorPos i)))
    with (st := (offset i, shiftLeft, 0))
    as ([[[off sl] column] b] & Hr & Hinv).
  - intros c [[off sl] column] Hin Hst. simpl in Hst.
    destruct (clusters_inside graphemes stringWidth graphemes_partition
                shown c Hin) as (H1 & H2 & H3).
    unfold scrollStep.
    destruct (textPos c >=? offset i);
      [| eexists; split; [reflexivity | exact Hst]].
    destruct (sl >? 0); [eexists; split; [reflexivity | simpl; lia] |].
    destruct (textPos c + textWidth c >? cursorPos i);
      eexists; (split; [reflexivity | exact Hst]).
  - exact Hoff.
  - rewrite Hr. cbn [bind fst]. simpl in Hinv.
    change (offset (set_offset i off)) with off.
    rewrite slice_from_ok by exact Hinv. cbn [bind].
    exists off, column. split; [reflexivity | exact Hinv].
Qed.

(** That branch moves the cursor into the range of the string it
    draws. *)
Lemma drawScrolled_exact (i : InputField) (shown : gostring)
  (fieldWidth : Z) :
  0 <= offset i ->
  exists o column,
    drawScrolled graphemes stringWidth Escape i shown fieldWidth
    = Some (set_offset
              (set_cursorPos i (clampCursor (cursorPos i) shown)) o,
            Escape (skipn (Z.to_nat o) shown), column) /\
    0 <= o <= len shown.
Proof.
  intros Hoff. unfold drawScrolled.
  pose proof (len_nonneg shown) as Hlen.
  set (p := clampCursor (cursorPos i) shown).
  assert (Hia : (if cursorPos i <? 0 then set_cursorPos i 0
                 else if cursorPos i >? len shown
                      then set_cursorPos i (len shown) else i)
                = set_cursorPos i p /\ 0 <= p <= len shown).
  { unfold p, clampCursor. destruct (Z.ltb_spec (cursorPos i) 0).
    - split; [reflexivity | lia].
    - rewrite Z.gtb_ltb. destruct (Z.ltb_spec (len shown) (cursorPos i)).
      + split; [reflexivity | lia].
      + split; [symmetry; apply set_cursorPos_same | lia]. }
  destruct Hia as [-> Hp]. clearbody p.
  change (offset (set_cursorPos i p)) with (offset i).
  change (cursorPos (set_cursorPos i p)) with p.
  rewrite Z.gtb_ltb. destruct (Z.ltb_spec p (offset i)).
  - cbn [bind].
    destruct (scrollText_exact (set_offset (set_cursorPos i p) p) shown 0)
      as (o & column & -> & Ho); [simpl; lia |].
    exists o, column. split; [reflexivity | exact Ho].
  - rewrite slice_ok by lia. cbn [bind].
    match goal with
    | |- context [scrollText _ _ _ ?ib _ ?sl] =>
        destruct (scrollText_exact ib shown sl) as (o & column & -> & Ho);
          [simpl; lia |]
    end.
    exists o, column. split; [reflexivity | exact Ho].
Qed.

(** The part of [Draw] that draws the entered text: what it writes and
    what it prints. *)
Lemma drawText_exact (i : InputField) (x y fieldWidth : Z) (focused : bool)
  (color : Z) :
  0 <= offset i ->
  let fits :=
    showsPlaceholder i || (fieldWidth >=? stringWidth (shownText i)) in
  let p :=
    if fits then cursorPos i
    else clampCursor (cursorPos i) (shownText i) in
  exists o ops column,
    drawText graphemes stringWidth ColorUnset Escape i x y fieldWidth
      focused color
    = Some (set_offset (set_cursorPos i p) o, ops, column) /\
    0 <= o /\ (fits = true -> o = 0) /\
    printed ops
    = if showsPlaceholder i then [Escape (placeholder i)]
      else Escape (skipn (Z.to_nat o) (shownText i))
           :: (if (maskCharacter i =? 0)
                  && negb (gostring_eqb (autocompleteListSuggestion i) [])
               then [autocompleteListSuggestion i] else []).
Proof.
  intros Hoff fits p. unfold drawText. subst p fits. unfold showsPlaceholder.
  destruct (gostring_eqb (text i) [] && negb (gostring_eqb (placeholder i) []))
    eqn:Eph.
  - cbn [orb]. exists 0. eexists _, _.
    split; [rewrite set_cursorPos_same; reflexivity |].
    split; [lia |]. split; [reflexivity |]. reflexivity.
  - cbn [orb].
    destruct (fieldWidth >=? stringWidth (shownText i)) eqn:Efit.
    + destruct (cursorStep_total (cursorPos i)
                  (shownText i) 0) as [r ->].
      cbn [bind]. exists 0. eexists _, _.
      split; [rewrite set_cursorPos_same; reflexivity |].
      split; [lia |]. split; [reflexivity |].
      cbn [printed skipn Z.to_nat].
      change (maskCharacter (set_offset i 0)) with (maskCharacter i).
      change (autocompleteListSuggestion (set_offset i 0))
        with (autocompleteListSuggestion i).
      destruct ((maskCharacter i =? 0)
                && negb (gostring_eqb (autocompleteListSuggestion i) []));
        reflexivity.
    + destruct (drawScrolled_exact i (shownText i) fieldWidth Hoff)
        as (o & column & -> & Ho).
      cbn [bind]. exists o. eexists _, _.
      split; [reflexivity |].
      split; [lia |]. split; [intros H; discriminate H |].
      cbn [printed].
      match goal with
      | |- context [maskCharacter ?j] =>
          change (maskCharacter j) with (maskCharacter i);
          change (autocompleteListSuggestion j)
            with (autocompleteListSuggestion i)
      end.
      destruct ((maskCharacter i =? 0)
                && negb (gostring_eqb (autocompleteListSuggestion i) []));
        reflexivity.
Qed.

Lemma printed_app (a b : list ScreenOp) :
  printed (a ++ b) = printed a ++ printed b.
Proof.
  induction a as [| op a IH]; [reflexivity |].
  destruct op; simpl; now rewrite IH.
Qed.

Lemma printed_SetContent {A : Type} (f : A -> Z) (y ch bg : Z) (l : list A) :
  printed (map (fun a => OpSetContent (f a) y ch bg) l) = [].
Proof. induction l; simpl; auto. Qed.

(** [Draw] when the inner rectangle leaves room: it writes the cursor,
    the rectangle of the list, [fieldX] and the offset, and prints the
    label, the text and the note. *)
Lemma Draw_exact (i : InputField) (sheight : Z) :
  0 <= offset i ->
  nothingToDraw i = false ->
  let fits :=
    showsPlaceholder i
    || (drawnFieldWidth printedWidth i >=? stringWidth (shownText i)) in
  exists l o ops,
    Draw graphemes stringWidth ColorUnset Escape TaggedStringWidth
      printedWidth i sheight
    = Some (update i (text i) (maskCharacter i)
              (if fits then cursorPos i
               else clampCursor (cursorPos i) (shownText i))
              l (autocompleteListSuggestion i)
              (drawnFieldX printedWidth i) o, ops) /\
    0 <= o /\ (fits = true -> o = 0) /\
    printed ops = drawnTexts Escape i (shownText i) o.
Proof.
  intros Hoff Hroom fits. subst fits.
  unfold Draw, drawnTexts.
  unfold nothingToDraw in Hroom.
  unfold drawnFieldWidth, drawnFieldX.
  destruct (Box.GetInnerRect (box i)) as [[[x y] width] height].
  rewrite Hroom. cbv zeta.
  match goal with
  | |- context [drawText _ _ _ _ ?i1 ?x1 ?y1 ?fw ?fo ?co] =>
      destruct (drawText_exact i1 x1 y1 fw fo co Hoff)
        as (o & opsText & column & Hd & Ho & Hfit & Hprinted);
      set (x' := x1) in *
  end.
  cbv zeta in Hd.
  change (fieldWidth (set_fieldX i x')) with (fieldWidth i) in *.
  set (fw' := if x + width - x' <?
                 (if fieldWidth i =? 0 then MaxInt32 else fieldWidth i)
              then x + width - x'
              else (if fieldWidth i =? 0 then MaxInt32 else fieldWidth i))
    in *.
  change (showsPlaceholder (set_fieldX i x')) with (showsPlaceholder i)
    in Hd, Hfit, Hprinted.
  change (shownText (set_fieldX i x')) with (shownText i)
    in Hd, Hfit, Hprinted.
  change (cursorPos (set_fieldX i x')) with (cursorPos i) in Hd.
  change (placeholder (set_fieldX i x')) with (placeholder i) in Hprinted.
  change (maskCharacter (set_fieldX i x')) with (maskCharacter i)
    in Hprinted.
  change (autocompleteListSuggestion (set_fieldX i x'))
    with (autocompleteListSuggestion i) in Hprinted.
  set (p := if showsPlaceholder i || (fw' >=? stringWidth (shownText i))
            then cursorPos i
            else clampCursor (cursorPos i) (shownText i)) in *.
  clearbody x' fw' p. rewrite Hd. cbn [bind].
  change (fieldNote (set_offset (set_cursorPos (set_fieldX i x') p) o))
    with (fieldNote i).
  change (autocompleteList (set_offset (set_cursorPos (set_fieldX i x') p) o))
    with (autocompleteList i).
  destruct (autocompleteList i) as [l |] eqn:El.
  - exists (Some (placeList TaggedStringWidth l x' y sheight)), o.
    eexists. split; [reflexivity |].
    split; [exact Ho |]. split; [exact Hfit |].
    cbn [printed]. f_equal.
    rewrite !printed_app, printed_SetContent, Hprinted. cbn [app].
    f_equal.
    destruct (negb (gostring_eqb (fieldNote i) [])); cbn [printed app].
    + destruct (Box.hasFocus _); reflexivity.
    + destruct (Box.hasFocus _); reflexivity.
  - exists None, o.
    eexists. split; [rewrite <- El; reflexivity |].
    split; [exact Ho |]. split; [exact Hfit |].
    cbn [printed]. f_equal.
    rewrite !printed_app, printed_SetContent, Hprinted. cbn [app].
    f_equal.
    destruct (negb (gostring_eqb (fieldNote i) [])); cbn [printed app].
    + destruct (Box.hasFocus _); reflexivity.
    + destruct (Box.hasFocus _); reflexivity.
Qed.

Lemma Draw_nothing (i : InputField) (sheight : Z) :
  nothingToDraw i = true ->
  Draw graphemes stringWidth ColorUnset Escape TaggedStringWidth
    printedWidth i sheight
  = Some (i, [OpBoxDraw]).
Proof.
  unfold nothingToDraw, Draw.
  destruct (Box.GetInnerRect (box i)) as [[[x y] width] height].
  intros ->. reflexivity.
Qed.

End DrawFacts.

Lemma len_Repeat (s : gostring) (n : nat) :
  len (Repeat s n) = Z.of_nat n * len s.
Proof.
  induction n as [| n IH]; [reflexivity |].
  cbn [Repeat]. rewrite len_app, IH. lia.
Qed.

(** C9: a mask character does not change the rendering only.
    [SetMaskCharacter] writes [maskCharacter] and no other field, [Draw]
    never writes the text or the mask, [GetText] returns the text as
    before, and what [Draw] prints for the text is the mask character,
    encoded, once per rune of the text (from the offset on).  But when
    that masked string is wider than the field, [Draw] moves the cursor
    into the byte range of the masked string, not of the text: a cursor
    inside the text, beyond the byte length of the masked string, is
    written back as the byte length of the masked string.  (When the
    string fits, or the placeholder is drawn, [Draw] leaves the cursor.)
    This is stated for a segmentation into grapheme clusters that cuts a
    string into non-empty pieces, and an offset that is not negative. *)
Theorem masked_draw_writes_the_cursor
  (graphemes : gostring -> list nat) (stringWidth : gostring -> Z)
  (ColorUnset : Z) (Escape : gostring -> gostring)
  (TaggedStringWidth : gostring -> Z)
  (printedWidth : gostring -> Z -> Z -> Z -> Align -> Z)
  (i : InputField.InputField) (mask : Utf8.rune) (sheight : Z) :
  partitions graphemes ->
  0 <= InputField.offset i ->
  let m := InputField.SetMaskCharacter i mask in
  let shown :=
    if mask >? 0
    then Repeat (Utf8.string_of_rune mask)
           (Utf8.RuneCountInString (InputField.text i))
    else InputField.text i in
  let fits :=
    showsPlaceholder i
    || (drawnFieldWidth printedWidth i >=? stringWidth shown) in
  (InputField.maskCharacter m = mask /\
   InputField.box m = InputField.box i /\
   InputField.text m = InputField.text i /\
   InputField.label m = InputField.label i /\
   InputField.placeholder m = InputField.placeholder i /\
   InputField.colors m = InputField.colors i /\
   InputField.fieldNote m = InputField.fieldNote i /\
   InputField.labelWidth m = InputField.labelWidth i /\
   InputField.fieldWidth m = InputField.fieldWidth i /\
   InputField.cursorPos m = InputField.cursorPos i /\
   InputField.autocomplete m = InputField.autocomplete i /\
   InputField.autocompleteList m = InputField.autocompleteList i /\
   InputField.autocompleteListSuggestion m
   = InputField.autocompleteListSuggestion i /\
   InputField.accept m = InputField.accept i /\
   InputField.changed m = InputField.changed i /\
   InputField.done m = InputField.done i /\
   InputField.finished m = InputField.finished i /\
   InputField.fieldX m = InputField.fieldX i /\
   InputField.offset m = InputField.offset i) /\
  InputField.GetText m = InputField.GetText i /\
  len (Repeat (Utf8.string_of_rune mask)
         (Utf8.RuneCountInString (InputField.text i)))
  = Z.of_nat (Utf8.RuneCountInString (InputField.text i))
    * len (Utf8.string_of_rune mask) /\
  (nothingToDraw i = true ->
   InputField.Draw graphemes stringWidth ColorUnset Escape
     TaggedStringWidth printedWidth m sheight
   = Some (m, [InputField.OpBoxDraw])) /\
  (nothingToDraw i = false ->
   exists l o ops,
     InputField.Draw graphemes stringWidth ColorUnset Escape
       TaggedStringWidth printedWidth m sheight
     = Some (InputField.update i (InputField.text i) mask
               (if fits then InputField.cursorPos i
                else clampCursor (InputField.cursorPos i) shown)
               l (InputField.autocompleteListSuggestion i)
               (drawnFieldX printedWidth i) o,
             ops) /\
     0 <= o /\ (fits = true -> o = 0) /\
     InputField.printed ops = drawnTexts Escape m shown o).
Proof.
  intros Hg Hoff m shown fits.
  split; [repeat split |]. split; [reflexivity |].
  split; [apply len_Repeat |].
  split.
  - intros Hroom.
    exact (Draw_nothing graphemes stringWidth ColorUnset Escape
             TaggedStringWidth printedWidth m sheight Hroom).
  - intros Hroom.
    exact (Draw_exact graphemes stringWidth ColorUnset Escape
             TaggedStringWidth printedWidth Hg m sheight Hoff Hroom).
Qed.

Lemma masked_draw_writes_the_cursor_witness :
  exists l o ops,
    InputField.Draw runeGraphemes runeWidth (-1) identity byteWidth
      clippedWidth
      (InputField.SetMaskCharacter (field accented None None) 42) 24
    = Some (InputField.update (field accented None None) accented 42
              15 l [] 6 o,
            ops) /\
    0 <= o /\
    InputField.printed ops
    = [str "Name: "; skipn (Z.to_nat o) (str "***************")].
Proof.
  destruct (proj2 (proj2 (proj2 (proj2
              (masked_draw_writes_the_cursor runeGraphemes runeWidth (-1)
                 identity byteWidth clippedWidth
                 (field accented None None) 42 24
                 runeGraphemes_partition ltac:(vm_compute; discriminate))))) eq_refl)
    as (l & o & ops & Hd & Ho & _ & Hp).
  exists l, o, ops. split; [exact Hd |]. split; [exact Ho | exact Hp].
Defined.

(** C9 fails on this input.  The text is fifteen times U+00E9 (30
    bytes), the cursor is at its end, the field is 14 columns wide.
    Without a mask [Draw] leaves the cursor at 30.  With the mask '*'
    the masked string has 15 bytes and [Draw] writes 15 to the cursor,
    which is the middle of the eighth rune of the text; the letter x
    typed next is inserted there, between the two bytes of that rune,
    where without the mask it is appended to the text. *)
Lemma masked_draw_moves_the_cursor_into_the_text :
  let f := field accented None None in
  let draw i :=
    InputField.Draw runeGraphemes runeWidth (-1) identity byteWidth
      clippedWidth i 24 in
  let typed i :=
    option_map (fun r => InputField.text (fst r))
      (InputField.InputHandler newList0 runeGraphemes runeWidth (type 120)
         i) in
  InputField.cursorPos f = 30 /\ len (InputField.text f) = 30 /\
  option_map (fun r => InputField.cursorPos (fst r)) (draw f) = Some 30 /\
  option_map (fun r => (InputField.text (fst r), InputField.cursorPos (fst r),
                        InputField.printed (snd r)))
    (draw (InputField.SetMaskCharacter f 42))
  = Some (accented, 15, [str "Name: "; str "*************"]) /\
  match draw f with
  | Some (i1, _) => typed i1
  | None => None
  end = Some (accented ++ str "x") /\
  match draw (InputField.SetMaskCharacter f 42) with
  | Some (i1, _) => typed i1
  | None => None
  end
  = Some (Repeat (Utf8.string_of_rune 233) 7 ++ [xc3] ++ str "x"
          ++ [xa9] ++ Repeat (Utf8.string_of_rune 233) 7).
Proof. vm_compute. repeat split. Qed.
